(** * YelpApp: the review-rhythm heatmap (my-app/src/components/ReviewRhythm.js)

    A shallow embedding of the ReviewRhythm component: the missing-data
    guard, the day/hour binning loop with its running maximum, the shared
    colour scale, the 7 x 24 cell grid, the axis labels, the tooltip and the
    hover state held by [useState].

    JavaScript numbers are modelled as [Z] together with [NaN]; this is exact
    for every integer of magnitude below 2^53.  The one division of the
    component, [CELL_SIZE / 2], is exact because the size is even.  Strings
    are held in UTF-8, which every String without a lone surrogate has.

    The later modules embed what surrounds the component: CuisineDiversity,
    SentimentTimeline, and the state of the page that fetches the profile
    and mounts the components.  Their fractional numbers (the diversity
    score, the mood scores) are modelled as [Q], the exact value of the
    Number. *)

From Stdlib Require Import ZArith QArith Qminmax Qround Qabs Qpower Lia Lqa Ascii
  String.
From stdpp Require Import base option list strings pretty gmap sorting.

Local Open Scope string_scope.
Local Open Scope list_scope.
Local Open Scope Z_scope.

(** ** The JavaScript primitives the component relies on *)

Module JS.

(** A Number that is an integer or NaN. *)
Inductive number := NaN | Num (z : Z).

#[export] Instance number_eq_dec : EqDecision number.
Proof. solve_decision. Defined.

(** [day - 1] *)
Definition sub (a : number) (k : Z) : number :=
  match a with NaN => NaN | Num z => Num (z - k) end.

(** Number to String, as a template literal does it. *)
Definition toString (a : number) : string :=
  match a with NaN => "NaN" | Num z => pretty z end.

(** Strings are held in UTF-8: a character is the one to four bytes that
    encode its code point. *)
Definition utf8 (codePoint : N) : string :=
  string_of_list_ascii
    (Ascii.ascii_of_N <$>
       (if codePoint <? 0x80 then [codePoint]
        else if codePoint <? 0x800 then
          [0xC0 + codePoint / 0x40; 0x80 + codePoint mod 0x40]
        else if codePoint <? 0x10000 then
          [0xE0 + codePoint / 0x1000; 0x80 + (codePoint / 0x40) mod 0x40;
           0x80 + codePoint mod 0x40]
        else
          [0xF0 + codePoint / 0x40000; 0x80 + (codePoint / 0x1000) mod 0x40;
           0x80 + (codePoint / 0x40) mod 0x40; 0x80 + codePoint mod 0x40])%N).

(** The characters that [parseInt] and [trim] skip (StrWhiteSpaceChar):
    TAB, VT, FF, the byte order mark and the space separators (WhiteSpace),
    LF, CR and the line and paragraph separators (LineTerminator). *)
Definition whiteSpace : list string :=
  utf8 <$>
    [0x09; 0x0B; 0x0C; 0xFEFF;
     0x20; 0xA0; 0x1680; 0x2000; 0x2001; 0x2002; 0x2003; 0x2004; 0x2005;
     0x2006; 0x2007; 0x2008; 0x2009; 0x200A; 0x202F; 0x205F; 0x3000;
     0x0A; 0x0D; 0x2028; 0x2029]%N.

(** [s] without the prefix [w], when it starts with [w]. *)
Fixpoint stripPrefix (w s : string) : option string :=
  match w, s with
  | EmptyString, _ => Some s
  | String a w', String b s' =>
      if Ascii.eqb a b then stripPrefix w' s' else None
  | String _ _, EmptyString => None
  end.

(** [s] without the first of [ws] that it starts with. *)
Fixpoint stripFirst (ws : list string) (s : string) : option string :=
  match ws with
  | [] => None
  | w :: ws' =>
      match stripPrefix w s with
      | Some r => Some r
      | None => stripFirst ws' s
      end
  end.

(** [s] without one leading white space character. *)
Definition stripWhite (s : string) : option string := stripFirst whiteSpace s.

(** Leading white space taken off, one character at a time; there are at
    most [String.length s] of them. *)
Fixpoint trimStart_from (n : nat) (s : string) : string :=
  match n with
  | O => s
  | S n' =>
      match stripWhite s with
      | Some r => trimStart_from n' r
      | None => s
      end
  end.

Definition trimStart (s : string) : string :=
  trimStart_from (String.length s) s.

(** The value of a character as a digit, for radices up to 36. *)
Definition digit_value (c : ascii) : option Z :=
  let n := Z.of_N (Ascii.N_of_ascii c) in
  if (48 <=? n) && (n <=? 57) then Some (n - 48)
  else if (97 <=? n) && (n <=? 122) then Some (n - 87)
  else if (65 <=? n) && (n <=? 90) then Some (n - 55)
  else None.

Definition radix_digit (radix : Z) (c : ascii) : option Z :=
  match digit_value c with
  | Some d => if d <? radix then Some d else None
  | None => None
  end.

(** The longest prefix of radix digits, read as an integer; [NaN] when the
    prefix is empty. *)
Fixpoint digits (radix : Z) (s : string) (acc : number) : number :=
  match s with
  | String c r =>
      match radix_digit radix c with
      | Some d =>
          digits radix r
            (Num (radix * (match acc with NaN => 0 | Num a => a end) + d))
      | None => acc
      end
  | EmptyString => acc
  end.

(** [parseInt(string)] with the radix left out: leading white space, an
    optional sign, an optional [0x] prefix, then the digits.  The value is
    the integer the digits stand for, which is the Number the engine gives
    as long as its magnitude is below 2^53. *)
Definition parseInt (s : string) : number :=
  let s1 := trimStart s in
  let '(sign, s2) :=
    match s1 with
    | String "-" r => (-1, r)
    | String "+" r => (1, r)
    | _ => (1, s1)
    end in
  let '(radix, s3) :=
    match s2 with
    | String "0" (String "x" r) | String "0" (String "X" r) => (16, r)
    | _ => (10, s2)
    end in
  match digits radix s3 NaN with
  | NaN => NaN
  | Num m => Num (sign * m)
  end.

(** Decimal digits, and the three shapes a printed number can take:
    [NaN], a digit string, or a minus sign and a digit string. *)
Definition is_digit (c : ascii) : bool :=
  let n := Ascii.N_of_ascii c in ((48 <=? n) && (n <=? 57))%N.

Fixpoint all_digits (s : string) : bool :=
  match s with
  | String c r => is_digit c && all_digits r
  | EmptyString => true
  end.

Inductive printed : string -> Prop :=
| printed_nan : printed "NaN"
| printed_neg c ds :
    is_digit c = true -> all_digits ds = true ->
    printed (String "-" (String c ds))
| printed_nat c ds :
    is_digit c = true -> all_digits ds = true -> printed (String c ds).

(** A value that may be [undefined] or [null]; an object otherwise. *)
Inductive maybe (A : Type) := Undefined | Null | Object (a : A).
Arguments Undefined {A}.
Arguments Null {A}.
Arguments Object {A} a.

(** ToBoolean of such a value: objects are truthy. *)
Definition truthy {A} (v : maybe A) : bool :=
  match v with Object _ => true | _ => false end.

(** The own enumerable string-keyed properties of an object, in [for-in]
    order.  Property names are unique. *)
Definition props (V : Type) : Type := list (string * V).

(** [obj[key]] on such an object. *)
Fixpoint get {V} (key : string) (o : props V) : option V :=
  match o with
  | [] => None
  | (k, v) :: r => if String.eqb k key then Some v else get key r
  end.

(** Evaluation either returns or throws. *)
Inductive exn := TypeError.
Definition M (A : Type) : Type := exn + A.
Definition ret {A} (a : A) : M A := inr a.
Definition throw {A} (e : exn) : M A := inl e.
Definition bind {A B} (m : M A) (f : A -> M B) : M B :=
  match m with inl e => inl e | inr a => f a end.

(** Reading a property of [undefined] or [null] throws. *)
Definition member {A B} (v : maybe A) (field : A -> B) : M B :=
  match v with Object a => ret (field a) | _ => throw TypeError end.

(** [Object.keys(v)] throws on [undefined] and [null]. *)
Definition Object_keys {V} (v : maybe (props V)) : M (list string) :=
  match v with Object o => ret (o.*1) | _ => throw TypeError end.

(** [v || 0] for a Map lookup of integer values: [undefined] and [0] are
    falsy. *)
Definition or_zero (v : option Z) : Z :=
  match v with
  | Some c => if c =? 0 then 0 else c
  | None => 0
  end.

End JS.

Notation "'let*' x ':=' m 'in' k" := (JS.bind m (fun x => k))
  (at level 10, x name, m at level 100, k at level 200).

(** ** The colour scale *)

Module D3.

Record Color := { red : Q; green : Q; blue : Q }.

Definition hex_pair (a b : ascii) : Q :=
  inject_Z (16 * default 0 (JS.radix_digit 16 a)
            + default 0 (JS.radix_digit 16 b)).

(** A colour written [#rrggbb]. *)
Definition color_of_hex (s : string) : Color :=
  match s with
  | String "#" (String r1 (String r2 (String g1 (String g2
      (String b1 (String b2 EmptyString)))))) =>
      {| red := hex_pair r1 r2; green := hex_pair g1 g2;
         blue := hex_pair b1 b2 |}
  | _ => {| red := 0; green := 0; blue := 0 |}
  end.

(** The scale object: [domain] and [clamp] are its settable fields,
    [range] its two endpoint colours. *)
Record Scale := { domain : Z * Z; range : Color * Color; clamp : bool }.

Definition set_domain (d : Z * Z) (s : Scale) : Scale :=
  {| domain := d; range := range s; clamp := clamp s |}.

(** Modelled from the spec: [scaleLinear] comes from the d3-scale package,
    which is imported by ReviewRhythm.js and is not among the repository's
    sources.  Section 4.2 of the specification: the interpolation fraction
    is [(count - lo) / (hi - lo)], clamped to [0,1] when [count] is outside
    [lo, hi]; a degenerate domain ([lo = hi]) gives fraction 0. *)
Definition fraction (s : Scale) (count : Z) : Q :=
  let '(lo, hi) := domain s in
  if lo =? hi then 0%Q
  else
    let t := (inject_Z (count - lo) / inject_Z (hi - lo))%Q in
    if clamp s then Qmax 0 (Qmin 1 t) else t.

(** Modelled from the spec: one channel, interpolated linearly between the
    endpoint values (section 4.2; the interpolator is d3's, not in the
    repository's sources). *)
Definition mix (c0 c1 t : Q) : Q := (c0 + (c1 - c0) * t)%Q.

(** Modelled from the spec: the scale applied to a count, channel by
    channel (section 4.2; d3-scale is not in the repository's sources). *)
Definition apply (s : Scale) (count : Z) : Color :=
  let t := fraction s count in
  let '(c0, c1) := range s in
  {| red := mix (red c0) (red c1) t;
     green := mix (green c0) (green c1) t;
     blue := mix (blue c0) (blue c1) t |}.

(** A channel value lying between those of two colours, inclusive. *)
Definition channel_between (a b v : Q) : Prop :=
  (Qmin a b <= v /\ v <= Qmax a b)%Q.

Definition between (c0 c1 c : Color) : Prop :=
  channel_between (red c0) (red c1) (red c)
  /\ channel_between (green c0) (green c1) (green c)
  /\ channel_between (blue c0) (blue c1) (blue c).

Definition color_eq (a b : Color) : Prop :=
  (red a == red b /\ green a == green b /\ blue a == blue b)%Q.

End D3.

(** ** The component *)

Module Rhythm.
Import JS.

(** *** Configuration *)

Definition daysOfWeek : list string :=
  ["Mon"; "Tue"; "Wed"; "Thu"; "Fri"; "Sat"; "Sun"].
(** [Array.from({ length: 24 }, (_, i) => i)] *)
Definition hoursOfDay : list Z := imap (fun i _ => Z.of_nat i) (replicate 24 ()).
Definition CELL_PADDING : Z := 1.
Definition CELL_SIZE : Z := 18.
Definition Y_AXIS_WIDTH : Z := 40.
Definition X_AXIS_HEIGHT : Z := 30.

(** [scaleLinear().range(['#282828', '#1DB954']).clamp(true)]; the domain
    is the library's initial [0, 1] until a render sets it. *)
Definition colorScale : D3.Scale :=
  {| D3.domain := (0, 1);
     D3.range := (D3.color_of_hex "#282828", D3.color_of_hex "#1DB954");
     D3.clamp := true |}.

(** *** Input *)

(** [data.data[dayStr]]: hour label to count. *)
Definition HourCounts : Type := props Z.
(** [data.data]: day label to hours. *)
Definition DayHours : Type := props HourCounts.
(** The [data] prop, when it is an object: its [data] field. *)
Record Payload := { data : maybe DayHours }.

(** What [for (const k in v)] runs over: nothing for [undefined] and
    [null]. *)
Definition for_in {V} (v : maybe (props V)) : props V :=
  match v with Object o => o | _ => [] end.

(** *** Data processing *)

(** The Map key [`${day - 1}-${hour}`]. *)
Definition cellKey (d h : number) : string :=
  toString d +:+ "-" +:+ toString h.

(** The state of the loop: [processedDataMap] and [maxValue]. *)
Definition Acc : Type := gmap string Z * Z.

(** The body of the inner loop. *)
Definition visit (day : number) (acc : Acc) (entry : string * Z) : Acc :=
  let '(hourStr, count) := entry in
  let hour := parseInt hourStr in
  (<[cellKey (sub day 1) hour := count]> acc.1,
   if count >? acc.2 then count else acc.2).

(** The body of the outer loop. *)
Definition visitDay (acc : Acc) (entry : string * HourCounts) : Acc :=
  let '(dayStr, hours) := entry in
  let day := parseInt dayStr in
  fold_left (visit day) hours acc.

Definition processData (d : DayHours) : Acc :=
  fold_left visitDay d (∅, 0).

(** [Math.max(maxValue, 1)], the upper end of the colour domain. *)
Definition domainMax (d : DayHours) : Z := Z.max (processData d).2 1.

(** *** Hover state *)

Record Cell := { day : Z; hour : Z; count : Z }.

#[export] Instance Cell_eq_dec : EqDecision Cell.
Proof. solve_decision. Defined.

(** *** Rendered elements *)

Record Rect := {
  rect_key : string;
  x : Z; y : Z; width : Z; height : Z;
  fill : D3.Color;
  (** [filter: brightness(1.4)] rather than [brightness(1)] *)
  highlighted : bool;
  (** the value [onMouseEnter] passes to [setHoveredCell];
      [onMouseLeave] always passes [null] *)
  onMouseEnter : Cell }.

Record Text := {
  text_key : string;
  text_x : Z; text_y : Z;
  textAnchor : string;
  content : string }.

Record Tooltip := {
  left : Z; top : Z;
  title : string;
  reviews : Z }.

(** A [<g transform="translate(dx, dy)">] with its children. *)
Record Group (A : Type) := { translate : Z * Z; children : A }.
Arguments translate {A} _.
Arguments children {A} _.

Record Chart := {
  chartWidth : Z; chartHeight : Z;
  cells : Group (list (list Rect));
  yLabels : Group (list Text);
  xLabels : Group (list (option Text));
  tooltip : option Tooltip }.

Inductive Element :=
| Fallback (message : string)
| Heatmap (c : Chart).

(** *** Rendering *)

Definition renderTooltip (hoveredCell : option Cell) : option Tooltip :=
  match hoveredCell with
  | None => None
  | Some c =>
      let xPos := Y_AXIS_WIDTH + hour c * (CELL_SIZE + CELL_PADDING) + CELL_SIZE / 2 in
      let yPos := X_AXIS_HEIGHT + day c * (CELL_SIZE + CELL_PADDING) - 10 in
      Some {| left := xPos; top := yPos;
              title :=
                default "undefined"
                  (if 0 <=? day c then daysOfWeek !! Z.to_nat (day c) else None)
                +:+ ", " +:+ pretty (hour c) +:+ ":00 - "
                +:+ pretty (hour c + 1) +:+ ":00";
              reviews := count c |}
  end.

Definition isHovered (hoveredCell : option Cell) (dayIndex h : Z) : bool :=
  match hoveredCell with
  | None => false
  | Some c => (day c =? dayIndex) && (hour c =? h)
  end.

Definition renderCell (processedDataMap : gmap string Z) (scale : D3.Scale)
    (hoveredCell : option Cell) (dayIndex h : Z) : Rect :=
  let count := or_zero (processedDataMap !! cellKey (Num dayIndex) (Num h)) in
  {| rect_key := "cell-" +:+ pretty dayIndex +:+ "-" +:+ pretty h;
     x := h * (CELL_SIZE + CELL_PADDING);
     y := dayIndex * (CELL_SIZE + CELL_PADDING);
     width := CELL_SIZE;
     height := CELL_SIZE;
     fill := D3.apply scale count;
     highlighted := isHovered hoveredCell dayIndex h;
     onMouseEnter := {| day := dayIndex; hour := h; count := count |} |}.

Definition renderCells (processedDataMap : gmap string Z) (scale : D3.Scale)
    (hoveredCell : option Cell) : list (list Rect) :=
  imap (fun dayIndex _ =>
          (fun h => renderCell processedDataMap scale hoveredCell
                      (Z.of_nat dayIndex) h) <$> hoursOfDay)
       daysOfWeek.

Definition renderYLabels : list Text :=
  imap (fun index dayLabel =>
          {| text_key := "y-label-" +:+ pretty index;
             text_x := Y_AXIS_WIDTH - 8;
             text_y := Z.of_nat index * (CELL_SIZE + CELL_PADDING) + CELL_SIZE / 2;
             textAnchor := "end";
             content := dayLabel |})
       daysOfWeek.

(** [(hour % 3 === 0) && <text .../>]: [false] renders nothing. *)
Definition renderXLabel (h : Z) : option Text :=
  if Z.rem h 3 =? 0 then
    Some {| text_key := "x-label-" +:+ pretty h;
            text_x := h * (CELL_SIZE + CELL_PADDING) + CELL_SIZE / 2;
            text_y := X_AXIS_HEIGHT - 8;
            textAnchor := "middle";
            content := pretty h +:+ ":00" |}
  else None.

(** The guard [!data || !data.data || Object.keys(data.data).length === 0],
    with the short circuits of [||]. *)
Definition noData (props : maybe Payload) : M bool :=
  if negb (truthy props) then ret true
  else
    let* d := member props data in
    if negb (truthy d) then ret true
    else
      let* d := member props data in
      let* keys := Object_keys d in
      ret (length keys =? 0)%nat.

(** One call of the component function: the [data] prop, the current
    [hoveredCell] and the shared scale go in; the element and the scale as
    the call leaves it come out. *)
Definition ReviewRhythm (props : maybe Payload) (hoveredCell : option Cell)
    (scale : D3.Scale) : M (Element * D3.Scale) :=
  let* missing := noData props in
  if missing then
    ret (Fallback "Review rhythm data is not available.", scale)
  else
    let* d := member props data in
    let '(processedDataMap, maxValue) := processData (for_in d) in
    let scale := D3.set_domain (0, Z.max maxValue 1) scale in
    let chartWidth :=
      Y_AXIS_WIDTH + Z.of_nat (length hoursOfDay) * (CELL_SIZE + CELL_PADDING) in
    let chartHeight :=
      X_AXIS_HEIGHT + Z.of_nat (length daysOfWeek) * (CELL_SIZE + CELL_PADDING) in
    ret (Heatmap
           {| chartWidth := chartWidth;
              chartHeight := chartHeight;
              cells :=
                {| translate := (Y_AXIS_WIDTH, X_AXIS_HEIGHT);
                   children := renderCells processedDataMap scale hoveredCell |};
              yLabels :=
                {| translate := (0, X_AXIS_HEIGHT);
                   children := renderYLabels |};
              xLabels :=
                {| translate := (Y_AXIS_WIDTH, 0);
                   children := renderXLabel <$> hoursOfDay |};
              tooltip := renderTooltip hoveredCell |},
         scale).

End Rhythm.

(** ** The mounted component and its events *)

Module Session.
Import JS Rhythm.

(** What is kept for a mounted ReviewRhythm between calls of the component
    function: the prop of the latest call and the [useState] cell. *)
Record Instance := {
  current : maybe Payload;
  hoveredCell : option Cell }.

(** Mounting runs [useState(null)]. *)
Definition mount (props : maybe Payload) : Instance :=
  {| current := props; hoveredCell := None |}.

Inductive Event :=
(** the pointer enters a rendered rect, whose [onMouseEnter] runs *)
| MouseEnter (r : Rect)
(** the pointer leaves a rendered rect, whose [onMouseLeave] runs *)
| MouseLeave (r : Rect)
(** the parent renders the mounted component again, with this prop *)
| Update (props : maybe Payload).

Definition setHoveredCell (v : option Cell) (i : Instance) : Instance :=
  {| current := current i; hoveredCell := v |}.

(** The component function calls [setHoveredCell] in the two handlers and
    nowhere else; the [useState] cell survives an update. *)
Definition step (i : Instance) (e : Event) : Instance :=
  match e with
  | MouseEnter r => setHoveredCell (Some (onMouseEnter r)) i
  | MouseLeave _ => setHoveredCell None i
  | Update props => {| current := props; hoveredCell := hoveredCell i |}
  end.

Definition run (i : Instance) (events : list Event) : Instance :=
  fold_left step events i.

(** What the instance shows. *)
Definition view (i : Instance) (scale : D3.Scale) : M (Element * D3.Scale) :=
  ReviewRhythm (current i) (hoveredCell i) scale.

End Session.

(** ** The vocabulary of the specification *)

Module Contract.
Import JS Rhythm.

(** The day labels 1..7 and the hour labels 0..23 of a RawRhythmInput. *)
Definition dayLabels : list string := pretty <$> seqZ 1 7.
Definition hourLabels : list string := pretty <$> seqZ 0 24.

Definition validHours (hours : HourCounts) : bool :=
  bool_decide (NoDup hours.*1)
  && forallb (fun e => bool_decide (e.1 ∈ hourLabels) && (0 <=? e.2)) hours.

(** A valid RawRhythmInput: an object whose keys are day labels, each
    holding an object whose keys are hour labels, with counts >= 0. *)
Definition valid (d : DayHours) : bool :=
  bool_decide (NoDup d.*1)
  && forallb (fun e => bool_decide (e.1 ∈ dayLabels) && validHours e.2) d.

(** The count the input holds under day label [dayNo] and hour label [h],
    if it holds one. *)
Definition inputCount (d : DayHours) (dayNo h : Z) : option Z :=
  hours ← get (pretty dayNo) d; get (pretty h) hours.

(** The pairs (day in 0..6, hour in 0..23), day-major. *)
Definition allPairs : list (Z * Z) :=
  dayIndex ← seqZ 0 7; h ← seqZ 0 24; [(dayIndex, h)].

(** The (day, hour) a rendered rect stands for and the count it carries. *)
Definition position (r : Rect) : Z * Z :=
  (day (onMouseEnter r), hour (onMouseEnter r)).
Definition carried (r : Rect) : Z := count (onMouseEnter r).

(** The rects of the grid built from an input. *)
Definition grid (d : DayHours) (scale : D3.Scale) (hoveredCell : option Cell)
    : list Rect :=
  concat (renderCells (processData d).1 scale hoveredCell).

(** Every count of the input, in the order the loop meets them. *)
Definition allCounts (d : DayHours) : list Z :=
  e ← d; e.2.*2.

(** The largest of 1 and every count of the input. *)
Definition maxCount (d : DayHours) : Z := foldr Z.max 1 (allCounts d).

(** Whether a parsed day and hour name one of the 7 x 24 cells. *)
Definition inRange (dayNo h : number) : bool :=
  match dayNo, h with
  | Num a, Num b => (1 <=? a) && (a <=? 7) && (0 <=? b) && (b <=? 23)
  | _, _ => false
  end.

(** The input with one entry taken out: the hour [hourStr] of day
    [dayStr]. *)
Definition without (before : DayHours) (dayStr : string)
    (hoursBefore hoursAfter : HourCounts) (after : DayHours) : DayHours :=
  before ++ (dayStr, hoursBefore ++ hoursAfter) :: after.

Definition withEntry (before : DayHours) (dayStr : string)
    (hoursBefore : HourCounts) (hourStr : string) (c : Z)
    (hoursAfter : HourCounts) (after : DayHours) : DayHours :=
  before ++ (dayStr, hoursBefore ++ (hourStr, c) :: hoursAfter) :: after.

(** The counts the input holds for the cell (dayIndex, h): those of the
    entries whose day key parses to [dayIndex + 1] and whose hour key parses
    to [h], in the order the loop meets them. *)
Definition countsFor (d : DayHours) (dayIndex h : Z) : list Z :=
  e ← d; he ← e.2;
  if decide (parseInt e.1 = Num (dayIndex + 1) ∧ parseInt he.1 = Num h)
  then [he.2] else [].

(** A key that parses to NaN or to an integer of magnitude below 2^53.  On
    such keys the numbers of the model are those of the engine: the parsed
    value, that value minus one, and the decimal either prints as. *)
Definition exactKey (key : string) : bool :=
  match parseInt key with
  | NaN => true
  | Num z => Z.abs z <? 2 ^ 53
  end.

Definition exactKeys (d : DayHours) : bool :=
  forallb (fun e => exactKey e.1 && forallb (fun he => exactKey he.1) e.2) d.

(** A call that throws. *)
Definition fails {A} (m : M A) : Prop := exists e, m = inl e.

(** The absolute position of something drawn inside a translated group. *)
Definition absolute (translate : Z * Z) (x y : Z) : Z * Z :=
  (translate.1 + x, translate.2 + y).

(** The [data] prop whose data object is the given one. *)
Definition payload (d : DayHours) : maybe Payload :=
  Object {| data := Object d |}.

(** The data object is absent, null or an empty object: the prop itself is
    [undefined] or [null], or its [data] field is [undefined] (the key is
    absent), [null] or [{}]. *)
Definition noDataAvailable (props : maybe Payload) : Prop :=
  props = Undefined \/ props = Null
  \/ exists f, props = Object f
       /\ (data f = Undefined \/ data f = Null \/ data f = Object []).

(** The grid and the tooltip of a rendered element, when it has them. *)
Definition gridOf (el : Element) : option (list (list Rect)) :=
  match el with Fallback _ => None | Heatmap c => Some (children (cells c)) end.
Definition tooltipOf (el : Element) : option Tooltip :=
  match el with Fallback _ => None | Heatmap c => tooltip c end.

(** The rects drawn with the hover emphasis. *)
Definition highlightedRects (rects : list Rect) : list Rect :=
  filter (fun r => highlighted r = true) rects.

End Contract.

(** ** The nested loop as one loop over the entries *)

Module Flat.
Import JS Rhythm.

(** The entries of the input in the order the loop meets them, each with the
    Map key the loop computes for it. *)
Definition entries (d : DayHours) : list (string * Z) :=
  e ← d;
  (fun he => (cellKey (sub (parseInt e.1) 1) (parseInt he.1), he.2)) <$> e.2.

(** The loop body on such an entry: the store into the Map and the update
    of the running maximum. *)
Definition store (acc : Acc) (e : string * Z) : Acc :=
  (<[e.1 := e.2]> acc.1, if e.2 >? acc.2 then e.2 else acc.2).

End Flat.

(** ** Sample inputs *)

Module Samples.
Import JS Rhythm Contract.

(** [{"1": {"9": 5}}] *)
Definition oneReview : DayHours := [("1", [("9", 5)])].
(** [{"8": {"0": 5}}]: a day key outside 1..7 *)
Definition badDay : DayHours := [("8", [("0", 5)])].
(** [{"1": {"24": 5}}]: an hour key outside 0..23 *)
Definition badHour : DayHours := [("1", [("24", 5)])].
(** [{"1": {"0": 5}, "8": {"0": 10}, "9": {"0": 20}}] *)
Definition twoStrays : DayHours :=
  withEntry [("1", [("0", 5)])] "8" [] "0" 10 [] [("9", [("0", 20)])].
(** [{"1": {"0": 5}, "8": {"0": 10}}] *)
Definition oneStray : DayHours :=
  withEntry [("1", [("0", 5)])] "8" [] "0" 10 [] [].

(** [{"8": {"0": 5, "00": 6}}]: two hour keys that parse alike under a day
    key outside 1..7 *)
Definition strayTwice : DayHours := withEntry [] "8" [] "0" 5 [("00", 6)] [].
(** [{"1": {"9": 5}, "01": {"9": 7}, "x": {"0": 1}}]: the days "1" and "01"
    parse alike *)
Definition sameCell : DayHours :=
  [("1", [("9", 5)]); ("01", [("9", 7)]); ("x", [("0", 1)])].

(** [{"\u00A01": {"0": 5}}]: a day key with a no-break space before the
    digit *)
Definition paddedDay : DayHours := [(utf8 0xA0 +:+ "1", [("0", 5)])].

(** [{"8": {"0": 0}}] *)
Definition zeroStray : DayHours := withEntry [] "8" [] "0" 0 [] [].

(** Every one of the 168 pairs present, each with count 0. *)
Definition allZero : DayHours :=
  (fun dayNo => (pretty dayNo, (fun h => (pretty h, 0)) <$> seqZ 0 24))
  <$> seqZ 1 7.

End Samples.

(** ** What a render leaves when the hover state is set aside *)

Module Frame.
Import JS Rhythm.

(** The element a call returns, when it returns. *)
Definition elementOf (m : M (Element * D3.Scale)) : option Element :=
  match m with inr (el, _) => Some el | inl _ => None end.

(** A rect without its hover emphasis. *)
Definition plain (r : Rect) : Rect :=
  {| rect_key := rect_key r; x := x r; y := y r; width := width r;
     height := height r; fill := fill r; highlighted := false;
     onMouseEnter := onMouseEnter r |}.

(** A chart without what the hover state adds: the emphasis and the
    tooltip. *)
Definition unhovered (c : Chart) : Chart :=
  {| chartWidth := chartWidth c; chartHeight := chartHeight c;
     cells := {| translate := translate (cells c);
                 children := (fun row : list Rect => plain <$> row)
                             <$> children (cells c) |};
     yLabels := yLabels c; xLabels := xLabels c; tooltip := None |}.

End Frame.

(** ** Further built-ins, used by the other components *)

Module Std.
Import JS.

(** [String.prototype.trim]: white space off both ends.  What is left of
    the end is the string up to its longest suffix of white space, that is,
    up to the first place from which only white space follows. *)
Fixpoint trimEnd (s : string) : string :=
  match s with
  | EmptyString => EmptyString
  | String c r =>
      if String.eqb (trimStart s) "" then EmptyString
      else String c (trimEnd r)
  end.

Definition trim (s : string) : string := trimEnd (trimStart s).

(** A string that consists of white space characters only. *)
Inductive blank : string -> Prop :=
| blank_empty : blank ""
| blank_more w r : w ∈ whiteSpace -> blank r -> blank (w +:+ r).

(** [Object.entries(v)] throws on [undefined] and [null]. *)
Definition Object_entries {V} (v : maybe (props V)) : M (props V) :=
  match v with Object o => ret o | _ => throw TypeError end.

(** Where [Array.prototype.sort] puts an element that stood before all of
    [l], [l] being sorted already: after the elements the comparator puts
    before it, and before the first one it does not. *)
Fixpoint insert {A} (compareFn : A -> A -> Z) (a : A) (l : list A) : list A :=
  match l with
  | [] => [a]
  | b :: r =>
      if compareFn a b <=? 0 then a :: l else b :: insert compareFn a r
  end.

(** [Array.prototype.sort(compareFn)].  The language fixes the result for a
    consistent comparator: the sorted arrangement that keeps elements the
    comparator does not tell apart in their original order.  Insertion
    builds that arrangement. *)
Definition sort {A} (compareFn : A -> A -> Z) (l : list A) : list A :=
  foldr (insert compareFn) [] l.

(** The order a comparator stands for: [a] may come before [b]. *)
Definition before {A} (compareFn : A -> A -> Z) (a b : A) : Prop :=
  compareFn a b <= 0.

(** The integer [n] for which [n / 10^digits] is nearest to [x >= 0], the
    larger one on a tie. *)
Definition nearest (x : Q) (digits : nat) : Z :=
  Qfloor (x * inject_Z (10 ^ Z.of_nat digits)%Z + (1 # 2))%Q.

Definition zeros (n : nat) : string :=
  string_of_list_ascii (replicate n "0"%char).

(** [x.toFixed(digits)] for a number of magnitude below 10^21 and
    [digits >= 1], [x] being the exact value of the Number. *)
Definition toFixed (x : Q) (digits : nat) : string :=
  let s := if Qlt_le_dec x 0 then "-" else "" in
  let m := pretty (nearest (Qabs x) digits) in
  let m := zeros (digits + 1 - String.length m) +:+ m in
  let k := String.length m in
  s +:+ substring 0 (k - digits) m +:+ "." +:+ substring (k - digits) digits m.

(** The decimal that [x.toFixed(digits)] writes, which
    [parseFloat(x.toFixed(digits))] reads back (as the Number nearest to
    it). *)
Definition rounded (x : Q) (digits : nat) : Q :=
  let n := nearest (Qabs x) digits in
  Qmake (if Qlt_le_dec x 0 then - n else n) (Pos.of_nat (10 ^ digits)%nat).

(** The integer nearest to [x], the even one of the two on a tie. *)
Definition roundHalfEven (x : Q) : Z :=
  let f := Qfloor x in
  match Qcompare (x - inject_Z f) (1 # 2) with
  | Lt => f
  | Gt => f + 1
  | Eq => if Z.even f then f else f + 1
  end.

(** The largest [k] with [2^k <= x], for [x > 0]: the difference of the
    binary lengths of numerator and denominator, or one less. *)
Definition floorLog2 (x : Q) : Z :=
  let k := Z.log2 (Qnum x) - Z.log2 (Z.pos (Qden x)) in
  if Qle_bool (2 ^ k) x then k else k - 1.

(** The Number nearest to the real [x], of magnitude below 2^1024: a real
    from 2^k on and below 2^(k+1) is rounded to a multiple of 2^(k-52), and
    none to a finer grid than 2^-1074; on a tie the even multiple is
    taken. *)
Definition double (x : Q) : Q :=
  if Qeq_bool x 0 then 0%Q
  else
    let e := Z.max (floorLog2 (Qabs x) - 52) (-1074) in
    let m := inject_Z (roundHalfEven (Qabs x / 2 ^ e)) in
    Qred (if Qlt_le_dec x 0 then - (m * 2 ^ e) else m * 2 ^ e)%Q.

(** [Array.prototype.map] with a callback that may throw: the first throw
    ends the call. *)
Fixpoint mapM {A B} (f : A -> M B) (l : list A) : M (list B) :=
  match l with
  | [] => ret []
  | a :: r =>
      let* b := f a in
      let* bs := mapM f r in
      ret (b :: bs)
  end.

End Std.

(** ** CuisineDiversity *)

Module Cuisine.
Import JS Std.

(** [data.diversity_score]: absent, [null] or a number. *)
Inductive Score := ScoreUndefined | ScoreNull | ScoreNum (q : Q).

(** The [data] prop, when it is an object. *)
Record Data := {
  category_counts : maybe (props Z);
  diversity_score : Score }.

(** [diversity_score < bound]: [null] compares as 0. *)
Definition less (s : Score) (bound : Q) : bool :=
  match s with
  | ScoreUndefined => false
  | ScoreNull => if Qlt_le_dec 0 bound then true else false
  | ScoreNum q => if Qlt_le_dec q bound then true else false
  end.

(** [diversity_score.toFixed(2)]: [null] has no properties. *)
Definition scoreToFixed (s : Score) (digits : nat) : M string :=
  match s with
  | ScoreNum q => ret (toFixed q digits)
  | _ => throw TypeError
  end.

(** One [<li>]: the category, its count and "review" or "reviews". *)
Record Item := { category : string; count : Z; unit : string }.

Record Panel := {
  (** the number after "Your top", or the empty string *)
  topCount : string;
  (** the list, or [None] for "No specific categories to show." *)
  items : option (list Item);
  scoreText : string;
  diversityLevel : string }.

Inductive Element :=
| Fallback (message : string)
| Shown (p : Panel).

Definition levelOf (diversity_score : Score) : string :=
  if less diversity_score 1 then "Low Diversity"
  else if less diversity_score 2 then "Medium Diversity"
  else "High Diversity".

(** [Object.entries(category_counts)
       .sort(([, countA], [, countB]) => countB - countA).slice(0, 10)] *)
Definition sortedCategories (entries : props Z) : props Z :=
  take 10 (sort (fun a b => b.2 - a.2) entries).

Definition renderItem (e : string * Z) : Item :=
  {| category := e.1; count := e.2;
     unit := "review" +:+ (if e.2 >? 1 then "s" else "") |}.

Definition CuisineDiversity (data : maybe Data) : M Element :=
  if negb (truthy data) then
    ret (Fallback "Cuisine diversity data is not available.")
  else
    let* counts := member data category_counts in
    if negb (truthy counts) then
      ret (Fallback "Cuisine diversity data is not available.")
    else
      let* score := member data diversity_score in
      match score with
      | ScoreUndefined =>
          ret (Fallback "Cuisine diversity data is not available.")
      | _ =>
          let diversityLevel := levelOf score in
          let* entries := Object_entries counts in
          let sortedCategories := sortedCategories entries in
          let n := length sortedCategories in
          let topCount :=
            if (0 <? n)%nat then pretty (Nat.min n 10) else "" in
          let items :=
            if (0 <? n)%nat then Some (renderItem <$> sortedCategories)
            else None in
          let* scoreText := scoreToFixed score 2 in
          ret (Shown {| topCount := topCount; items := items;
                        scoreText := scoreText;
                        diversityLevel := diversityLevel |})
      end.

End Cuisine.

(** ** SentimentTimeline *)

Module Sentiment.
Import JS Std.

(** A Number other than NaN, which no JSON document holds: finite, with its
    exact value (0 for either zero), or an infinity. *)
Inductive Float := Finite (x : Q) | Infinity (negative : bool).

(** The value of an entry of the timeline: a Number, or anything else
    (null, a string, a boolean, an array or an object). *)
Inductive Score := ScoreNumber (x : Float) | NotNumber.

(** The [data] prop, when it is an object: year label to mood score. *)
Record Data := { timeline : maybe (props Score) }.

(** One point of the line. *)
Record Point := { year : number; moodScore : Float }.

(** [parseFloat(x.toFixed(2))].  Below 10^21 in magnitude [toFixed] writes
    the nearest decimal with two digits, from there on the shortest decimal
    that reads back as [x], and for an infinity its name; [parseFloat]
    reads the Number nearest to what is written. *)
Definition reread (x : Float) : Float :=
  match x with
  | Finite q =>
      Finite (if Qlt_le_dec (Qabs q) (10 ^ 21) then double (rounded q 2)
              else q)
  | Infinity negative => Infinity negative
  end.

(** The point made of an entry whose score is a Number. *)
Definition pointOf (e : string * Float) : Point :=
  {| year := parseInt e.1; moodScore := reread e.2 |}.

(** The callback of [map]: [score.toFixed] is a function on Numbers only,
    so the call throws on any other score. *)
Definition toPoint (e : string * Score) : M Point :=
  match e.2 with
  | ScoreNumber x => ret (pointOf (e.1, x))
  | NotNumber => throw TypeError
  end.

(** [(a, b) => a.year - b.year]; [sort] reads a NaN result as 0. *)
Definition byYear (a b : Point) : Z :=
  match year a, year b with
  | Num x, Num y => x - y
  | _, _ => 0
  end.


Inductive Element :=
| Fallback (message : string)
(** the [LineChart] with its [data] *)
| LineChart (chartData : list Point).

Definition SentimentTimeline (data : maybe Data) : M Element :=
  if negb (truthy data) then
    ret (Fallback "Sentiment timeline data is not available.")
  else
    let* t := member data timeline in
    if negb (truthy t) then
      ret (Fallback "Sentiment timeline data is not available.")
    else
      let* t := member data timeline in
      let* keys := Object_keys t in
      if (length keys =? 0)%nat then
        ret (Fallback "Sentiment timeline data is not available.")
      else
        let* t := member data timeline in
        let* entries := Object_entries t in
        let* points := mapM toPoint entries in
        ret (LineChart (sort byYear points)).



End Sentiment.

(** ** HomePage *)

Module Page.
Import JS Rhythm Std.

(** The profile document, as far as the Review Rhythm section reads it. *)
Record Profile := { review_rhythm : maybe Payload }.

(** The four [useState] cells of the page. *)
Record State := {
  userId : string;
  profileData : maybe Profile;
  isLoading : bool;
  error : option string }.

Definition initial : State :=
  {| userId := ""; profileData := Null; isLoading := false; error := None |}.

Definition setUserId (v : string) (st : State) : State :=
  {| userId := v; profileData := profileData st; isLoading := isLoading st;
     error := error st |}.
Definition setProfileData (v : maybe Profile) (st : State) : State :=
  {| userId := userId st; profileData := v; isLoading := isLoading st;
     error := error st |}.
Definition setIsLoading (v : bool) (st : State) : State :=
  {| userId := userId st; profileData := profileData st; isLoading := v;
     error := error st |}.
Definition setError (v : option string) (st : State) : State :=
  {| userId := userId st; profileData := profileData st;
     isLoading := isLoading st; error := v |}.

(** What [await response.json()] gives for a response that is not ok. *)
Inductive ErrorBody :=
(** the body is not JSON: [json()] rejects *)
| Unparsable
(** the body is [null]: reading [.detail] throws, with this message *)
| NullBody (message : string)
(** any other body: [detail] is absent or falsy ([None]), or truthy and
    printed as this string *)
| Body (detail : option string).

(** What the awaited calls of one [fetchProfileData] come to. *)
Inductive Outcome :=
(** [fetch] rejects, with this [err.message] *)
| FetchRejects (message : string)
(** [!response.ok] *)
| NotOk (status : Z) (body : ErrorBody)
(** [response.ok], and [response.json()] rejects with this [err.message] *)
| OkUnparsable (message : string)
(** [response.ok], and the body parses to this document *)
| Ok (data : maybe Profile).

(** [a || b] on strings: the empty string is falsy. *)
Definition or_else (a b : string) : string :=
  if String.eqb a "" then b else a.

(** The [try] block after the request was sent: the document, or the
    message of the error thrown. *)
Definition attempt (o : Outcome) : string + maybe Profile :=
  match o with
  | FetchRejects message => inl message
  | NotOk status body =>
      match body with
      | Unparsable =>
          inl (or_else "Failed to fetch data. Invalid JSON response."
                 ("HTTP error! status: " +:+ pretty status))
      | NullBody message => inl message
      | Body None => inl ("HTTP error! status: " +:+ pretty status)
      | Body (Some detail) => inl detail
      end
  | OkUnparsable message => inl message
  | Ok data => inr data
  end.

(** The URL requested. *)
Definition url (userId : string) : string :=
  "http://localhost:8000/api/users/" +:+ userId +:+ "/full-profile".

(** [fetchProfileData] up to its first [await]: the new state and the
    request sent, if one is. *)
Definition begin (st : State) : State * option string :=
  if String.eqb (trim (userId st)) "" then
    (setProfileData Null (setError (Some "Please enter a User ID.") st), None)
  else
    (setProfileData Null (setError None (setIsLoading true st)),
     Some (url (userId st))).

(** [fetchProfileData] from the first [await] on: [try], [catch] and
    [finally]. *)
Definition settle (o : Outcome) (st : State) : State :=
  let st :=
    match attempt o with
    | inr data => setProfileData data st
    | inl message =>
        setProfileData Null
          (setError (Some (or_else message "An unexpected error occurred.")) st)
    end in
  setIsLoading false st.

Inductive Event :=
(** typing in the input: [onChange] *)
| Typed (value : string)
(** submitting the form: [handleSubmit] *)
| Submitted
(** the request in flight comes to an outcome *)
| Settled (o : Outcome).

(** The submit button is [disabled={isLoading}], so the form is not
    submitted while a request is in flight, and a request is in flight
    exactly while [isLoading] holds.  Each run of state updates is one step:
    React batches the updates of a run into one render, the one of the
    state the run ends in.  [console.error] is left out. *)
Definition step (st : State) (e : Event) : State :=
  match e with
  | Typed value => setUserId value st
  | Submitted => if isLoading st then st else (begin st).1
  | Settled o => if isLoading st then settle o st else st
  end.

Definition run (st : State) (events : list Event) : State :=
  fold_left step events st.

(** What holds of the state between the runs: nothing else is set while a
    request is in flight, and an error excludes a profile. *)
Definition consistent (st : State) : Prop :=
  (isLoading st = true -> error st = None /\ profileData st = Null)
  /\ (forall m, error st = Some m -> m <> "" /\ profileData st = Null).

(** What the page shows besides the form. *)
Record View := {
  (** [{error && ...}] *)
  errorBox : option string;
  (** [{isLoading && ...}] *)
  loadingNote : bool;
  (** [{profileData && !isLoading && ...}] *)
  dashboard : option Profile;
  (** the button: its label and whether it is disabled *)
  buttonLabel : string;
  buttonDisabled : bool }.

Definition view (st : State) : View :=
  {| errorBox :=
       match error st with
       | Some message => if String.eqb message "" then None else Some message
       | None => None
       end;
     loadingNote := isLoading st;
     dashboard :=
       match profileData st with
       | Object p => if negb (isLoading st) then Some p else None
       | _ => None
       end;
     buttonLabel := if isLoading st then "Loading..." else "Get Profile";
     buttonDisabled := isLoading st |}.

(** The Review Rhythm section of the dashboard:
    [profileData.review_rhythm ? <ReviewRhythm data={...} /> : <p>...</p>]. *)
Definition rhythmSection (p : Profile) (hoveredCell : option Cell)
    (scale : D3.Scale) : M (Element * D3.Scale) :=
  if truthy (review_rhythm p) then
    ReviewRhythm (review_rhythm p) hoveredCell scale
  else ret (Fallback "No Review Rhythm data available.", scale).

(** The [data] prop of the ReviewRhythm the page has mounted, if it has
    one. *)
Definition mounted (st : State) : option (maybe Payload) :=
  match dashboard (view st) with
  | Some p => if truthy (review_rhythm p) then Some (review_rhythm p) else None
  | None => None
  end.

End Page.

(** ** The page together with the ReviewRhythm it mounts *)

Module App.
Import JS Rhythm.

Record State := {
  page : Page.State;
  rhythm : option Session.Instance }.

Definition initial : State := {| page := Page.initial; rhythm := None |}.

(** After a render of the page: a component that stays in place keeps its
    state and is rendered with the prop of the moment; one that appears is
    mounted; one that disappears is dropped. *)
Definition reconcile (before : option Session.Instance)
    (now : option (maybe Payload)) : option Session.Instance :=
  match now with
  | None => None
  | Some props =>
      match before with
      | Some i => Some (Session.step i (Session.Update props))
      | None => Some (Session.mount props)
      end
  end.

Inductive Event :=
| OnPage (e : Page.Event)
(** the pointer enters or leaves a rect of the mounted heatmap *)
| Enter (r : Rect)
| Leave (r : Rect).

Definition step (st : State) (e : Event) : State :=
  match e with
  | OnPage e =>
      let page' := Page.step (page st) e in
      {| page := page'; rhythm := reconcile (rhythm st) (Page.mounted page') |}
  | Enter r =>
      {| page := page st;
         rhythm := (fun i => Session.step i (Session.MouseEnter r)) <$> rhythm st |}
  | Leave r =>
      {| page := page st;
         rhythm := (fun i => Session.step i (Session.MouseLeave r)) <$> rhythm st |}
  end.

Definition run (st : State) (events : list Event) : State :=
  fold_left step events st.


End App.

(** ** Facts about the primitives and the loop *)

Import JS Rhythm Session Contract Flat.

Create HintDb rhythm.

Section Printing.

Lemma is_digit_pretty_N_char n : is_digit (pretty_N_char n) = true.
Proof. unfold pretty_N_char. by repeat case_match. Qed.

Lemma append_nil_l s : "" +:+ s = s.
Proof. reflexivity. Qed.

Lemma append_cons c s t : String c s +:+ t = String c (s +:+ t).
Proof. reflexivity. Qed.

Lemma append_assoc s t u : (s +:+ t) +:+ u = s +:+ t +:+ u.
Proof.
  induction s as [|c s IH]; [done|]. by rewrite !append_cons, IH.
Qed.

Lemma all_digits_app s t :
  all_digits (s +:+ t) = all_digits s && all_digits t.
Proof.
  induction s as [|c s IH]; [done|].
  rewrite append_cons. simpl. by rewrite IH, andb_assoc.
Qed.

(** The printer only ever adds decimal digits in front of its accumulator. *)
Lemma pretty_N_go_shape x s :
  ∃ ds, pretty_N_go x s = ds +:+ s ∧ all_digits ds = true
        ∧ ((0 < x)%N → ds ≠ "").
Proof.
  revert s. induction (N.lt_wf_0 x) as [x _ IH]; intros s.
  destruct (decide (x = 0%N)) as [->|Hx].
  - exists "". rewrite pretty_N_go_0. split_and!; [done|done|lia].
  - rewrite pretty_N_go_step by lia.
    destruct (IH (x `div` 10)%N) with
      (s := String (pretty_N_char (x `mod` 10)) s) as (ds & -> & Hds & _).
    { apply N.div_lt; lia. }
    exists (ds +:+ String (pretty_N_char (x `mod` 10)) "").
    split_and!.
    + by rewrite append_assoc.
    + rewrite all_digits_app, Hds. simpl. by rewrite is_digit_pretty_N_char.
    + intros _. by destruct ds.
Qed.

Lemma pretty_N_shape (x : N) :
  ∃ c ds, pretty x = String c ds ∧ is_digit c = true ∧ all_digits ds = true.
Proof.
  unfold pretty, pretty_N. case_decide as Hx.
  - by exists "0"%char, "".
  - destruct (pretty_N_go_shape x "") as (ds & -> & Hds & Hne).
    destruct ds as [|c ds]; [destruct Hne; [lia|done]|].
    simpl in Hds. apply andb_true_iff in Hds as [??].
    exists c, (ds +:+ ""). rewrite all_digits_app, andb_true_r.
    by split_and!.
Qed.

Lemma pretty_Z_shape (z : Z) :
  ∃ c ds, is_digit c = true ∧ all_digits ds = true
          ∧ (pretty z = String c ds ∨ pretty z = String "-" (String c ds)).
Proof.
  destruct z as [|p|p].
  - exists "0"%char, "". auto.
  - destruct (pretty_N_shape (N.pos p)) as (c & ds & H & ? & ?).
    exists c, ds. auto.
  - destruct (pretty_N_shape (N.pos p)) as (c & ds & H & ? & ?).
    exists c, ds. split_and!; [done..|right].
    change (pretty (Z.neg p)) with ("-" +:+ pretty (N.pos p)).
    by rewrite H.
Qed.

Lemma toString_printed a : printed (toString a).
Proof.
  destruct a as [|z]; simpl; [constructor|].
  destruct (pretty_Z_shape z) as (c & ds & ? & ? & [-> | ->]);
    by constructor.
Qed.

Lemma toString_Num_not_NaN (z : Z) : pretty z ≠ "NaN".
Proof.
  destruct (pretty_Z_shape z) as (c & ds & Hc & _ & [-> | ->]);
    intros ?; by simplify_eq.
Qed.

#[local] Hint Resolve toString_printed : rhythm.

#[local] Instance toString_inj : Inj (=) (=) toString.
Proof.
  intros [|x] [|y] Hab; simpl in Hab.
  - done.
  - by destruct (toString_Num_not_NaN y).
  - by destruct (toString_Num_not_NaN x).
  - f_equal. by apply (inj pretty).
Qed.

Lemma digits_then_dash ds ds' t t' :
  all_digits ds = true → all_digits ds' = true →
  ds +:+ String "-" t = ds' +:+ String "-" t' → ds = ds' ∧ t = t'.
Proof.
  revert ds'. induction ds as [|c ds IH]; intros [|c' ds'] Hd Hd' Heq;
    rewrite ?append_cons, ?append_nil_l in Heq; simpl in Hd, Hd'.
  - by simplify_eq.
  - by simplify_eq.
  - by simplify_eq.
  - apply andb_true_iff in Hd as [_ Hd]. apply andb_true_iff in Hd' as [_ Hd'].
    injection Heq as -> Heq. destruct (IH ds' Hd Hd' Heq) as [-> ->]. done.
Qed.

Lemma printed_then_dash s s' t t' :
  printed s → printed s' →
  s +:+ String "-" t = s' +:+ String "-" t' → s = s' ∧ t = t'.
Proof.
  intros Hs Hs' Heq.
  destruct Hs as [|c ds Hc Hds|c ds Hc Hds];
    destruct Hs' as [|c' ds' Hc' Hds'|c' ds' Hc' Hds'].
  - rewrite !append_cons, !append_nil_l in Heq. by simplify_eq.
  - rewrite !append_cons in Heq. by simplify_eq.
  - rewrite !append_cons in Heq. by simplify_eq.
  - rewrite !append_cons in Heq. by simplify_eq.
  - rewrite !append_cons in Heq. injection Heq as -> Heq.
    by apply digits_then_dash in Heq as [-> ->].
  - rewrite !append_cons in Heq. by simplify_eq.
  - rewrite !append_cons in Heq. by simplify_eq.
  - rewrite !append_cons in Heq. by simplify_eq.
  - rewrite !append_cons in Heq. injection Heq as -> Heq.
    by apply digits_then_dash in Heq as [-> ->].
Qed.

(** Distinct pairs of numbers never share a Map key. *)
Lemma cellKey_inj a b a' b' :
  cellKey a b = cellKey a' b' → a = a' ∧ b = b'.
Proof.
  unfold cellKey. intros Heq.
  apply printed_then_dash in Heq as [Ha Hb]; auto with rhythm.
  split; by apply (inj toString).
Qed.

End Printing.

Section Binning.

Lemma or_zero_default o : or_zero o = default 0 o.
Proof. destruct o as [c|]; simpl; [|done]. case_match; lia. Qed.

Lemma get_cons_eq {V} k (v : V) o : get k ((k, v) :: o) = Some v.
Proof. simpl. by rewrite String.eqb_refl. Qed.

Lemma get_cons_ne {V} k k' (v : V) o : k' ≠ k → get k ((k', v) :: o) = get k o.
Proof. intros Hne. simpl. by apply String.eqb_neq in Hne as ->. Qed.

Lemma get_None {V} k (o : props V) : k ∉ o.*1 → get k o = None.
Proof.
  induction o as [|[k' v] o IH]; [done|]. rewrite fmap_cons, not_elem_of_cons.
  intros [Hne Hnot]. rewrite get_cons_ne by done. auto.
Qed.

Lemma store_app l1 l2 acc :
  fold_left store (l1 ++ l2) acc = fold_left store l2 (fold_left store l1 acc).
Proof. apply fold_left_app. Qed.

Lemma visit_store day hours acc :
  fold_left (visit day) hours acc
  = fold_left store
      ((λ he, (cellKey (sub day 1) (parseInt he.1), he.2)) <$> hours) acc.
Proof.
  revert acc. induction hours as [|[hourStr c] hours IH]; intros acc; [done|].
  simpl. by rewrite IH.
Qed.

Lemma processData_store d acc :
  fold_left visitDay d acc = fold_left store (entries d) acc.
Proof.
  revert acc. induction d as [|[dayStr hours] d IH]; intros acc; [done|].
  unfold entries. rewrite bind_cons, store_app. simpl.
  rewrite IH. by rewrite visit_store.
Qed.

Lemma entries_counts d : (entries d).*2 = allCounts d.
Proof.
  unfold entries, allCounts.
  induction d as [|[dayStr hours] d IH]; [done|].
  rewrite !bind_cons, fmap_app, IH. f_equal.
  rewrite <-list_fmap_compose. done.
Qed.

Lemma foldr_max_out c a l : foldr Z.max (Z.max c a) l = Z.max c (foldr Z.max a l).
Proof. induction l as [|x l IH]; simpl; [done|]. rewrite IH. lia. Qed.

Lemma store_max l acc : (fold_left store l acc).2 = foldr Z.max acc.2 l.*2.
Proof.
  revert acc. induction l as [|[k c] l IH]; intros acc; [done|].
  simpl. rewrite IH. simpl. rewrite <-foldr_max_out. f_equal.
  destruct (Z.gtb_spec c acc.2); lia.
Qed.

Lemma maxValue_counts d : (processData d).2 = foldr Z.max 0 (allCounts d).
Proof.
  unfold processData. by rewrite processData_store, store_max, entries_counts.
Qed.

Lemma store_agree l acc acc' k :
  acc.1 !! k = acc'.1 !! k →
  (fold_left store l acc).1 !! k = (fold_left store l acc').1 !! k.
Proof.
  revert acc acc'. induction l as [|[k' c] l IH]; intros acc acc' Hk; [done|].
  simpl. apply IH. simpl. rewrite !lookup_insert. by case_decide.
Qed.

Lemma store_other l acc k :
  k ∉ l.*1 → (fold_left store l acc).1 !! k = acc.1 !! k.
Proof.
  revert acc. induction l as [|[k' c] l IH]; intros acc; [done|].
  rewrite fmap_cons, not_elem_of_cons. intros [Hne Hnot]. simpl.
  rewrite IH by done. simpl. by rewrite lookup_insert_ne.
Qed.

(** Taking an entry out of the list changes the Map at that entry's key
    only. *)
Lemma store_without l1 k0 c l2 acc k :
  k ≠ k0 →
  (fold_left store (l1 ++ (k0, c) :: l2) acc).1 !! k
  = (fold_left store (l1 ++ l2) acc).1 !! k.
Proof.
  intros Hne. rewrite !store_app. simpl. apply store_agree. simpl.
  by rewrite lookup_insert_ne.
Qed.

End Binning.

(** One turn of a [for ... in] loop. *)
Ltac loop_step :=
  change (fold_left ?f (?e :: ?l) ?a) with (fold_left f l (f a e)).

Section ValidInput.

Lemma parse_hourLabel k :
  k ∈ hourLabels → ∃ h, k = pretty h ∧ parseInt k = Num h ∧ 0 ≤ h < 24.
Proof.
  assert (Forall (λ h, parseInt (pretty h) = Num h) (seqZ 0 24)) as Hall.
  { apply (bool_decide_unpack _). by vm_compute. }
  intros (h & -> & Hh)%list_elem_of_fmap. exists h.
  rewrite Forall_forall in Hall. apply elem_of_seqZ in Hh as ?.
  split_and!; [done|by apply Hall|lia..].
Qed.

Lemma parse_dayLabel k :
  k ∈ dayLabels → ∃ n, k = pretty n ∧ parseInt k = Num n ∧ 1 ≤ n ≤ 7.
Proof.
  assert (Forall (λ n, parseInt (pretty n) = Num n) (seqZ 1 7)) as Hall.
  { apply (bool_decide_unpack _). by vm_compute. }
  intros (n & -> & Hn)%list_elem_of_fmap. exists n.
  rewrite Forall_forall in Hall. apply elem_of_seqZ in Hn as ?.
  split_and!; [done|by apply Hall|lia..].
Qed.

Lemma validHours_unfold hours :
  validHours hours = true →
  NoDup hours.*1 ∧ Forall (λ e, e.1 ∈ hourLabels ∧ 0 ≤ e.2) hours.
Proof.
  unfold validHours. rewrite andb_true_iff, bool_decide_eq_true.
  intros [Hnd Hall]. split; [done|].
  rewrite forallb_forall in Hall. apply Forall_forall. intros e He.
  apply list_elem_of_In, Hall in He.
  apply andb_true_iff in He as [He1 He2].
  apply bool_decide_eq_true in He1. split; [done|lia].
Qed.

Lemma valid_unfold d :
  valid d = true →
  NoDup d.*1 ∧ Forall (λ e, e.1 ∈ dayLabels ∧ validHours e.2 = true) d.
Proof.
  unfold valid. rewrite andb_true_iff, bool_decide_eq_true.
  intros [Hnd Hall]. split; [done|].
  rewrite forallb_forall in Hall. apply Forall_forall. intros e He.
  apply list_elem_of_In, Hall in He.
  apply andb_true_iff in He as [He1 He2].
  by apply bool_decide_eq_true in He1.
Qed.

(** The inner loop on valid hours, seen at one hour of its own day. *)
Lemma lookup_hours n hz hours acc :
  validHours hours = true →
  (fold_left (visit (Num n)) hours acc).1 !! cellKey (Num (n - 1)) (Num hz)
  = match get (pretty hz) hours with
    | Some c => Some c
    | None => acc.1 !! cellKey (Num (n - 1)) (Num hz)
    end.
Proof.
  intros [Hnd Hall]%validHours_unfold. revert acc.
  induction hours as [|[hourStr c] hours IH]; intros acc; [done|].
  rewrite fmap_cons in Hnd. apply NoDup_cons in Hnd as [Hnot Hnd].
  apply Forall_cons in Hall as [[Hlabel _] Hall]. simpl in Hnot, Hlabel.
  destruct (parse_hourLabel _ Hlabel) as (h & -> & Hparse & _).
  loop_step. rewrite IH by done. unfold visit. simpl fst. rewrite Hparse. simpl sub.
  destruct (decide (h = hz)) as [->|Hne].
  - rewrite get_cons_eq, (get_None _ hours) by done.
    by rewrite lookup_insert_eq.
  - rewrite get_cons_ne by (by intros ?%(inj pretty)).
    rewrite lookup_insert_ne; [done|].
    intros [_ ?]%cellKey_inj. congruence.
Qed.

(** The inner loop of one day leaves the cells of the other days alone. *)
Lemma lookup_other_day day dz hz hours acc :
  sub day 1 ≠ Num dz →
  (fold_left (visit day) hours acc).1 !! cellKey (Num dz) (Num hz)
  = acc.1 !! cellKey (Num dz) (Num hz).
Proof.
  intros Hne. rewrite visit_store. apply store_other.
  rewrite <-list_fmap_compose.
  intros (he & [? _]%cellKey_inj & _)%list_elem_of_fmap. congruence.
Qed.

(** On a valid input the Map holds, under the key of cell (day, hour), the
    count the input has for day label [day + 1] and hour label [hour]. *)
Lemma lookup_days dz hz d acc :
  valid d = true →
  (fold_left visitDay d acc).1 !! cellKey (Num dz) (Num hz)
  = match inputCount d (dz + 1) hz with
    | Some c => Some c
    | None => acc.1 !! cellKey (Num dz) (Num hz)
    end.
Proof.
  intros [Hnd Hall]%valid_unfold. revert acc.
  induction d as [|[dayStr hours] d IH]; intros acc; [done|].
  rewrite fmap_cons in Hnd. apply NoDup_cons in Hnd as [Hnot Hnd].
  apply Forall_cons in Hall as [[Hlabel Hhours] Hall].
  simpl in Hnot, Hlabel, Hhours.
  destruct (parse_dayLabel _ Hlabel) as (n & -> & Hparse & _).
  loop_step. rewrite IH by done. unfold visitDay. rewrite Hparse. unfold inputCount.
  destruct (decide (n = dz + 1)) as [->|Hne].
  - rewrite get_cons_eq, (get_None _ d) by done. simpl.
    pose proof (lookup_hours (dz + 1) hz hours acc Hhours) as Hin.
    replace (dz + 1 - 1) with dz in Hin by lia. rewrite Hin.
    by destruct (get (pretty hz) hours).
  - rewrite get_cons_ne by (by intros ?%(inj pretty)).
    rewrite lookup_other_day; [done|]. simpl. intros [= ?]. lia.
Qed.

Lemma processData_valid dz hz d :
  valid d = true →
  (processData d).1 !! cellKey (Num dz) (Num hz) = inputCount d (dz + 1) hz.
Proof.
  intros Hd. unfold processData. rewrite lookup_days by done.
  by destruct (inputCount d (dz + 1) hz).
Qed.

End ValidInput.

Section Grid.

Lemma renderCells_allPairs m scale hov :
  concat (renderCells m scale hov)
  = (λ p, renderCell m scale hov p.1 p.2) <$> allPairs.
Proof. reflexivity. Qed.

Lemma length_allPairs : length allPairs = 168%nat.
Proof. reflexivity. Qed.

Lemma elem_of_allPairs dz hz :
  (dz, hz) ∈ allPairs ↔ 0 ≤ dz ≤ 6 ∧ 0 ≤ hz ≤ 23.
Proof.
  unfold allPairs. rewrite list_elem_of_bind. split.
  - intros (d & (h & Hin & Hh%elem_of_seqZ)%list_elem_of_bind & Hd%elem_of_seqZ).
    apply list_elem_of_singleton in Hin as [= -> ->]. lia.
  - intros [Hd Hh]. exists dz. rewrite list_elem_of_bind, elem_of_seqZ.
    split; [|lia]. exists hz. rewrite elem_of_seqZ, list_elem_of_singleton.
    split; [done|lia].
Qed.

Lemma NoDup_allPairs : NoDup allPairs.
Proof. apply (bool_decide_unpack _). by vm_compute. Qed.

Lemma position_grid d scale hov : position <$> grid d scale hov = allPairs.
Proof.
  unfold grid. rewrite renderCells_allPairs, <-list_fmap_compose.
  rewrite <-(list_fmap_id allPairs) at 2. apply list_fmap_ext.
  by intros _ [dz hz] _.
Qed.

End Grid.

Section Scale.
Import D3.

Lemma clamped_unit t : (0 <= Qmax 0 (Qmin 1 t) <= 1)%Q.
Proof.
  split; [apply Q.le_max_l|].
  apply Q.max_lub; [done|apply Q.le_min_l].
Qed.

Lemma fraction_unit s count :
  clamp s = true → (0 <= fraction s count <= 1)%Q.
Proof.
  intros Hclamp. unfold fraction. destruct (domain s) as [lo hi].
  case_match; [done|]. rewrite Hclamp. apply clamped_unit.
Qed.

Lemma mix_between c0 c1 t :
  (0 <= t <= 1)%Q → channel_between c0 c1 (mix c0 c1 t).
Proof.
  intros [H0 H1]. unfold channel_between, mix.
  destruct (Q.min_spec c0 c1) as [[Hlt ->]|[Hle ->]];
    destruct (Q.max_spec c0 c1) as [[Hlt' ->]|[Hle' ->]]; split; nra.
Qed.

Lemma apply_between s count :
  clamp s = true → between (range s).1 (range s).2 (apply s count).
Proof.
  intros Hclamp. pose proof (fraction_unit s count Hclamp) as Ht.
  unfold apply, between. destruct (range s) as [c0 c1]. simpl.
  split_and!; by apply mix_between.
Qed.

Lemma fraction_below lo hi count s :
  domain s = (lo, hi) → clamp s = true → lo < hi → count ≤ lo →
  (fraction s count == 0)%Q.
Proof.
  intros Hdom Hclamp Hlt Hle. unfold fraction. rewrite Hdom, Hclamp.
  destruct (Z.eqb_spec lo hi) as [?|_]; [lia|].
  assert (inject_Z (count - lo) / inject_Z (hi - lo) <= 0)%Q as Ht.
  { apply Qle_shift_div_r.
    - change 0%Q with (inject_Z 0). rewrite <-Zlt_Qlt. lia.
    - rewrite Qmult_0_l. change 0%Q with (inject_Z 0). rewrite <-Zle_Qle. lia. }
  apply Qle_antisym; [|apply Q.le_max_l].
  apply Q.max_lub; [done|]. eapply Qle_trans; [apply Q.le_min_r|done].
Qed.

Lemma fraction_above lo hi count s :
  domain s = (lo, hi) → clamp s = true → lo < hi → hi ≤ count →
  (fraction s count == 1)%Q.
Proof.
  intros Hdom Hclamp Hlt Hle. unfold fraction. rewrite Hdom, Hclamp.
  destruct (Z.eqb_spec lo hi) as [?|_]; [lia|].
  assert (1 <= inject_Z (count - lo) / inject_Z (hi - lo))%Q as Ht.
  { apply Qle_shift_div_l.
    - change 0%Q with (inject_Z 0). rewrite <-Zlt_Qlt. lia.
    - rewrite Qmult_1_l. rewrite <-Zle_Qle. lia. }
  rewrite (Q.min_l 1) by done. apply Q.max_r. done.
Qed.

End Scale.

Section Component.

(** The guard lets a non-empty [data.data] through, and the call then
    builds the heatmap from it. *)
Lemma ReviewRhythm_heatmap e d hov scale :
  ∃ chart,
    ReviewRhythm (payload (e :: d)) hov scale
    = inr (Heatmap chart, D3.set_domain (0, domainMax (e :: d)) scale)
    ∧ cells chart
      = {| translate := (Y_AXIS_WIDTH, X_AXIS_HEIGHT);
           children :=
             renderCells (processData (e :: d)).1
               (D3.set_domain (0, domainMax (e :: d)) scale) hov |}
    ∧ xLabels chart
      = {| translate := (Y_AXIS_WIDTH, 0);
           children := renderXLabel <$> hoursOfDay |}
    ∧ tooltip chart = renderTooltip hov.
Proof.
  unfold payload, ReviewRhythm, noData, domainMax.
  change (truthy (Object ?a)) with true.
  cbn [negb member bind ret Object_keys data for_in fmap list_fmap length Nat.eqb].
  destruct (processData (e :: d)) as [m mx]. cbn [fst snd].
  eexists. split; [reflexivity|]. cbn [cells xLabels tooltip]. done.
Qed.

Lemma ReviewRhythm_total props hov scale :
  ¬ fails (ReviewRhythm props hov scale).
Proof.
  intros [err Herr].
  destruct props as [| |[[| |[|e d]]]]; try discriminate Herr.
  destruct (ReviewRhythm_heatmap e d hov scale) as (chart & Hr & _).
  discriminate (eq_trans (eq_sym Hr) Herr).
Qed.

End Component.

Section Strays.

Lemma store_stored l acc k :
  k ∈ l.*1 → is_Some ((fold_left store l acc).1 !! k).
Proof.
  revert acc. induction l as [|[k' c] l IH]; intros acc; [by inv 1|].
  rewrite fmap_cons. intros Hin.
  destruct (decide (k ∈ l.*1)) as [Hl|Hl]; [by apply IH|].
  apply elem_of_cons in Hin as [->|?]; [|done]. simpl.
  rewrite store_other by done. simpl. rewrite lookup_insert_eq. by eexists.
Qed.

Lemma entries_withEntry before dayStr hoursBefore hourStr c hoursAfter after :
  ∃ l1 l2,
    entries (withEntry before dayStr hoursBefore hourStr c hoursAfter after)
    = l1 ++ (cellKey (sub (parseInt dayStr) 1) (parseInt hourStr), c) :: l2
    ∧ entries (without before dayStr hoursBefore hoursAfter after) = l1 ++ l2.
Proof.
  unfold entries, withEntry, without. rewrite !bind_app, !bind_cons.
  cbn [fst snd]. rewrite !fmap_app, fmap_cons. cbn [fst snd].
  match goal with
  | |- ∃ l1 l2, ?A ++ (?B ++ _ :: ?C) ++ ?D = _ ∧ _ =>
      exists (A ++ B), (C ++ D)
  end.
  split; rewrite <-!app_assoc; reflexivity.
Qed.

(** An entry outside the 7 x 24 range has a Map key that no cell reads. *)
Lemma entries_split before dayStr hoursBefore hourStr c hoursAfter after :
  ∃ l1,
    entries (withEntry before dayStr hoursBefore hourStr c hoursAfter after)
    = l1 ++ (cellKey (sub (parseInt dayStr) 1) (parseInt hourStr), c)
         :: entries ((dayStr, hoursAfter) :: after).
Proof.
  exists (entries before
          ++ ((λ he, (cellKey (sub (parseInt dayStr) 1) (parseInt he.1), he.2))
              <$> hoursBefore)).
  unfold entries, withEntry. rewrite !bind_app, !bind_cons.
  cbn [fst snd]. rewrite fmap_app, fmap_cons. cbn [fst snd].
  by rewrite <-!app_assoc.
Qed.

(** The Map holds, under each key, the count of the last entry stored under
    it. *)
Lemma store_last_match l acc k :
  (fold_left store l acc).1 !! k
  = match last (filter (λ e, e.1 = k) l) with
    | Some e => Some e.2
    | None => acc.1 !! k
    end.
Proof.
  induction l as [|e l IH] using rev_ind; [done|].
  rewrite store_app, filter_app. cbn [fold_left store fst].
  rewrite filter_cons, filter_nil. case_decide as He.
  - rewrite last_snoc, He. apply lookup_insert_eq.
  - rewrite app_nil_r, lookup_insert_ne by done. apply IH.
Qed.

Lemma stray_key dayNo h dayIndex hz :
  inRange dayNo h = false → (dayIndex, hz) ∈ allPairs →
  cellKey (Num dayIndex) (Num hz) ≠ cellKey (sub dayNo 1) h.
Proof.
  intros Hout Hin%elem_of_allPairs [Hd Hh]%cellKey_inj.
  destruct dayNo as [|a]; [discriminate Hd|].
  destruct h as [|b]; [discriminate Hh|].
  cbn [sub inRange] in Hd, Hout. injection Hd as Hd. injection Hh as Hh.
  assert ((1 <=? a) && (a <=? 7) && (0 <=? b) && (b <=? 23) = true) as Hin'
    by (rewrite !andb_true_iff, !Z.leb_le; lia).
  congruence.
Qed.

Lemma carried_grid d scale hov :
  onMouseEnter <$> grid d scale hov
  = (λ p, {| day := p.1; hour := p.2;
             count := or_zero ((processData d).1 !! cellKey (Num p.1) (Num p.2)) |})
    <$> allPairs.
Proof.
  unfold grid. by rewrite renderCells_allPairs, <-list_fmap_compose.
Qed.

End Strays.

Section AtMostOne.
Context {A B : Type} (f : A → B) (P : B → Prop) `{!∀ b, Decision (P b)}.

Lemma filter_fmap_none (l : list A) :
  (∀ a, a ∈ l → ¬ P (f a)) → filter P (f <$> l) = [].
Proof.
  induction l as [|a l IH]; intros Hnone; [done|].
  rewrite fmap_cons, filter_cons_False.
  - apply IH. intros a' Ha'. apply Hnone. by right.
  - apply Hnone. by left.
Qed.

(** In a list without duplicates at most one element is picked by a
    predicate that only one value can satisfy. *)
Lemma filter_fmap_at_most_one (q : A) (l : list A) :
  NoDup l → (∀ a, a ∈ l → P (f a) → a = q) →
  (length (filter P (f <$> l)) ≤ 1)%nat.
Proof.
  induction 1 as [|a l Hnot Hnd IH]; intros Hq; [simpl; lia|].
  rewrite fmap_cons, filter_cons. case_decide as HP.
  - rewrite filter_fmap_none; [simpl; lia|].
    intros a' Ha' HP'. apply Hnot.
    rewrite (Hq a) by (done || by left).
    by rewrite <-(Hq a') by (done || by right).
  - apply IH. intros a' Ha'. apply Hq. by right.
Qed.

End AtMostOne.

Section Hover.

Lemma isHovered_Some c dayIndex h :
  isHovered (Some c) dayIndex h = true ↔ (dayIndex, h) = (day c, hour c).
Proof.
  unfold isHovered. rewrite andb_true_iff, !Z.eqb_eq.
  split; [by intros [-> ->]|by intros [= -> ->]].
Qed.

Lemma highlighted_at_most_one m scale hov :
  (length (highlightedRects (concat (renderCells m scale hov))) ≤ 1)%nat.
Proof.
  unfold highlightedRects. rewrite renderCells_allPairs.
  destruct hov as [c|].
  - apply (filter_fmap_at_most_one _ _ (day c, hour c));
      [apply NoDup_allPairs|].
    intros [dayIndex h] _. simpl. apply isHovered_Some.
  - rewrite filter_fmap_none; [simpl; lia|]. by intros [dayIndex h] _.
Qed.

End Hover.

Section StrayMax.

Lemma allCounts_withEntry before dayStr hoursBefore hourStr c hoursAfter after :
  ∃ l1 l2,
    allCounts (withEntry before dayStr hoursBefore hourStr c hoursAfter after)
    = l1 ++ c :: l2
    ∧ allCounts (without before dayStr hoursBefore hoursAfter after) = l1 ++ l2.
Proof.
  destruct (entries_withEntry before dayStr hoursBefore hourStr c
              hoursAfter after) as (l1 & l2 & Hwith & Hwithout).
  exists l1.*2, l2.*2. rewrite <-!entries_counts, Hwith, Hwithout.
  by rewrite !fmap_app.
Qed.

Lemma foldr_max_middle a l1 c l2 :
  foldr Z.max a (l1 ++ c :: l2) = Z.max c (foldr Z.max a (l1 ++ l2)).
Proof. induction l1 as [|x l1 IH]; simpl; [done|]. rewrite IH. lia. Qed.

Lemma domainMax_foldr d : domainMax d = foldr Z.max 1 (allCounts d).
Proof.
  unfold domainMax. rewrite maxValue_counts.
  induction (allCounts d) as [|c l IH]; simpl; lia.
Qed.

Lemma foldr_max_bound a l b :
  a ≤ b → Forall (λ c, c ≤ b) l → foldr Z.max a l ≤ b.
Proof. intros Ha. induction 1; simpl; lia. Qed.

End StrayMax.

(** ** The scenarios of the specification, run on the model *)

(** [{"data": {"1": {"9": 5}}}]: cell (0, 9) carries 5, the other 167 cells
    carry 0, and the colour domain ends at 5. *)
Example scenario_one_review :
  carried <$> grid Samples.oneReview colorScale None
  = (λ p, if decide (p = (0, 9)) then 5 else 0) <$> allPairs
  ∧ domainMax Samples.oneReview = 5.
Proof. by vm_compute. Qed.

(** All 168 pairs present with count 0: the colour domain ends at 1 and
    every cell is filled with the first endpoint colour. *)
Example scenario_all_zero :
  valid Samples.allZero = true
  ∧ domainMax Samples.allZero = 1
  ∧ fill <$> grid Samples.allZero (D3.set_domain (0, 1) colorScale) None
    = replicate 168 (D3.color_of_hex "#282828").
Proof. by vm_compute. Qed.

(** Hover on (day 3, hour 14), then leave: the hover state goes from some
    cell to none, and the tooltip from a point to none. *)
Example scenario_hover_then_leave :
  let r := renderCell (processData Samples.oneReview).1 colorScale None 3 14 in
  let entered := run (mount (payload Samples.oneReview)) [MouseEnter r] in
  let left := run entered [MouseLeave r] in
  hoveredCell entered = Some {| day := 3; hour := 14; count := 0 |}
  ∧ (λ t, (Rhythm.left t, top t)) <$> renderTooltip (hoveredCell entered)
    = Some (315, 77)
  ∧ hoveredCell left = None
  ∧ renderTooltip (hoveredCell left) = None.
Proof. by vm_compute. Qed.

(** ** The claims of the specification *)

(** C1.  On every valid RawRhythmInput the binning pass yields a dense grid:
    168 rects, exactly one for each pair (day in 0..6, hour in 0..23) and so
    without duplicates; the rect of (day, hour) carries the count the input
    holds under day label [day + 1] and hour label [hour], and 0 when the
    input holds none. *)
Theorem binning_dense_grid (d : DayHours) (scale : D3.Scale)
    (hoveredCell : option Cell) :
  valid d = true →
  let rects := grid d scale hoveredCell in
  length rects = 168%nat
  ∧ position <$> rects = allPairs
  ∧ NoDup (position <$> rects)
  ∧ (∀ dayIndex h,
       (dayIndex, h) ∈ position <$> rects ↔ 0 ≤ dayIndex ≤ 6 ∧ 0 ≤ h ≤ 23)
  ∧ Forall (λ r,
       match inputCount d ((position r).1 + 1) (position r).2 with
       | Some c => carried r = c
       | None => carried r = 0
       end) rects
  ∧ (∀ e d', d = e :: d' →
       ∃ chart scale',
         ReviewRhythm (payload d) hoveredCell scale = inr (Heatmap chart, scale')
         ∧ concat (children (cells chart)) = grid d scale' hoveredCell).
Proof.
  intros Hvalid rects.
  assert (position <$> rects = allPairs) as Hpos by apply position_grid.
  split_and!.
  - by rewrite <-(length_fmap position), Hpos.
  - done.
  - rewrite Hpos. apply NoDup_allPairs.
  - intros dayIndex h. rewrite Hpos. apply elem_of_allPairs.
  - subst rects. unfold grid. rewrite renderCells_allPairs.
    apply Forall_fmap, Forall_forall. intros [dayIndex h] _.
    unfold carried, position. simpl.
    rewrite or_zero_default, processData_valid by done.
    by destruct (inputCount d (dayIndex + 1) h).
  - intros e d' ->.
    destruct (ReviewRhythm_heatmap e d' hoveredCell scale)
      as (chart & Hr & Hcells & _).
    eexists _, _. split; [exact Hr|]. by rewrite Hcells.
Qed.

(** The dense grid of the input [{"1": {"9": 5}}]. *)
Lemma binning_dense_grid_witness :
  let rects := grid Samples.oneReview colorScale None in
  length rects = 168%nat
  ∧ position <$> rects = allPairs
  ∧ NoDup (position <$> rects)
  ∧ (∀ dayIndex h,
       (dayIndex, h) ∈ position <$> rects ↔ 0 ≤ dayIndex ≤ 6 ∧ 0 ≤ h ≤ 23)
  ∧ Forall (λ r,
       match inputCount Samples.oneReview ((position r).1 + 1) (position r).2 with
       | Some c => carried r = c
       | None => carried r = 0
       end) rects
  ∧ (∀ e d', Samples.oneReview = e :: d' →
       ∃ chart scale',
         ReviewRhythm (payload Samples.oneReview) None colorScale
         = inr (Heatmap chart, scale')
         ∧ concat (children (cells chart)) = grid Samples.oneReview scale' None).
Proof.
  apply (binning_dense_grid Samples.oneReview colorScale None).
  vm_compute. reflexivity.
Defined.

(** C2.  When the data object is absent, null or empty, the call returns
    the textual fallback: it does not throw, and the element has neither a
    grid nor a tooltip, whatever the hover state. *)
Theorem missing_data_fallback (props : maybe Payload)
    (hoveredCell : option Cell) (scale : D3.Scale) :
  noDataAvailable props →
  ReviewRhythm props hoveredCell scale
  = inr (Fallback "Review rhythm data is not available.", scale)
  ∧ ¬ fails (ReviewRhythm props hoveredCell scale)
  ∧ ∀ el scale', ReviewRhythm props hoveredCell scale = inr (el, scale') →
      gridOf el = None ∧ tooltipOf el = None.
Proof.
  intros Hmissing.
  assert (ReviewRhythm props hoveredCell scale
          = inr (Fallback "Review rhythm data is not available.", scale)) as Hr.
  { destruct Hmissing as [->|[->|(f & -> & Hf)]]; [done..|].
    destruct f as [field]. simpl in Hf.
    by destruct Hf as [->|[->| ->]]. }
  split_and!; [done|apply ReviewRhythm_total|].
  intros el scale'. rewrite Hr. by intros [= <- <-].
Qed.

(** The fallback for [{"data": {}}], with a hovered cell left over. *)
Lemma missing_data_fallback_witness :
  ReviewRhythm (payload []) (Some {| day := 3; hour := 14; count := 2 |}) colorScale
  = inr (Fallback "Review rhythm data is not available.", colorScale)
  ∧ ¬ fails (ReviewRhythm (payload [])
               (Some {| day := 3; hour := 14; count := 2 |}) colorScale)
  ∧ ∀ el scale',
      ReviewRhythm (payload []) (Some {| day := 3; hour := 14; count := 2 |})
        colorScale = inr (el, scale') →
      gridOf el = None ∧ tooltipOf el = None.
Proof.
  apply (missing_data_fallback (payload [])).
  right. right. exists {| data := Object [] |}. split; [reflexivity|].
  right. right. reflexivity.
Defined.

(** C3.  The upper end of the colour domain is the largest of 1 and every
    count of the input: it is at least 1, at least every count, and it is 1
    or one of the counts; it is 1 when every count is zero or there is none.
    A call that draws the heatmap leaves the shared scale with the domain
    from 0 to that value. *)
Theorem domain_max_floor :
  (∀ d : DayHours,
     domainMax d = maxCount d
     ∧ 1 ≤ domainMax d
     ∧ Forall (λ c, c ≤ domainMax d) (allCounts d)
     ∧ (domainMax d = 1 ∨ domainMax d ∈ allCounts d)
     ∧ (Forall (λ c, c = 0) (allCounts d) → domainMax d = 1))
  ∧ (∀ e d hoveredCell scale,
       ∃ chart scale',
         ReviewRhythm (payload (e :: d)) hoveredCell scale
         = inr (Heatmap chart, scale')
         ∧ D3.domain scale' = (0, maxCount (e :: d)))
  ∧ 1 ≤ (D3.domain colorScale).2
  ∧ (∀ props hoveredCell scale el scale',
       ReviewRhythm props hoveredCell scale = inr (el, scale') →
       1 ≤ (D3.domain scale).2 → 1 ≤ (D3.domain scale').2).
Proof.
  assert (∀ d, domainMax d = maxCount d) as Hmax.
  { intros d. unfold domainMax, maxCount. rewrite maxValue_counts.
    induction (allCounts d) as [|c l IH]; simpl; lia. }
  assert (∀ d, 1 ≤ maxCount d) as Hfloor.
  { intros d. unfold maxCount. induction (allCounts d); simpl; lia. }
  split_and!.
  - intros d. rewrite Hmax. unfold maxCount.
    induction (allCounts d) as [|c l (_ & IH1 & IH2 & IH3 & IH4)]; simpl.
    + split_and!; [done|lia|constructor|by left|done].
    + split_and!; [done|lia| | |].
      * constructor; [lia|]. eapply Forall_impl; [exact IH2|]. simpl. lia.
      * destruct (Z.max_spec c (foldr Z.max 1 l)) as [[_ ->]|[_ ->]].
        -- destruct IH3 as [?|?]; [by left|right; by constructor].
        -- right. constructor.
      * intros [-> Hl]%Forall_cons. rewrite IH4 by done. done.
  - intros e d hoveredCell scale.
    destruct (ReviewRhythm_heatmap e d hoveredCell scale) as (chart & Hr & _).
    eexists _, _. split; [exact Hr|]. simpl. by rewrite Hmax.
  - done.
  - intros props hoveredCell scale el scale' Hr Hscale.
    destruct props as [| |[[| |[|e d]]]]; try (by injection Hr as _ <-).
    destruct (ReviewRhythm_heatmap e d hoveredCell scale) as (chart & Hr' & _).
    pose proof (eq_trans (eq_sym Hr) Hr') as [= _ ->]. simpl.
    rewrite Hmax. apply Hfloor.
Qed.

(** C4.  For every count, inside the domain or not, the interpolation
    fraction of the clamped scale lies in [0,1] and the colour lies, channel
    by channel, between the endpoint colours; below the domain the colour is
    the first endpoint and above it the second (no extrapolation). *)
Theorem color_scale_clamps (lo hi count : Z) :
  let s := D3.set_domain (lo, hi) colorScale in
  let C0 := D3.color_of_hex "#282828" in
  let C1 := D3.color_of_hex "#1DB954" in
  (0 <= D3.fraction s count <= 1)%Q
  ∧ D3.between C0 C1 (D3.apply s count)
  ∧ (lo < hi → count ≤ lo → D3.color_eq (D3.apply s count) C0)
  ∧ (lo < hi → hi ≤ count → D3.color_eq (D3.apply s count) C1).
Proof.
  intros s C0 C1.
  split; [|split; [|split]].
  - by apply fraction_unit.
  - by apply (apply_between s).
  - intros Hlt Hle.
    pose proof (fraction_below lo hi count s eq_refl eq_refl Hlt Hle) as Ht.
    unfold D3.color_eq, D3.apply, D3.mix. simpl. rewrite Ht.
    repeat split; ring.
  - intros Hlt Hle.
    pose proof (fraction_above lo hi count s eq_refl eq_refl Hlt Hle) as Ht.
    unfold D3.color_eq, D3.apply, D3.mix. simpl. rewrite Ht.
    repeat split; ring.
Qed.

(** C5, as stated, fails: a day key that parses to 8 and an hour key that
    parses to 24 do not make the call fail. *)
Lemma out_of_range_keys_do_not_fail :
  parseInt "8" = Num 8
  ∧ ¬ fails (ReviewRhythm (payload Samples.badDay) None colorScale)
  ∧ parseInt "24" = Num 24
  ∧ ¬ fails (ReviewRhythm (payload Samples.badHour) None colorScale).
Proof.
  split_and!; [reflexivity|apply ReviewRhythm_total|reflexivity|
               apply ReviewRhythm_total].
Qed.

(** C5, amended.  Binning never fails: whatever the keys parse to, the call
    returns.  No entry is rejected: each one, in range or not, is put into
    the lookup Map under the key made of its parsed day minus one and its
    parsed hour, with its count; there it stays unless an entry met later
    has the same key, in which case the Map holds the count of the last
    such entry.  (The key is named for inputs whose keys parse to NaN or
    below 2^53 in magnitude, where the model prints what the engine
    prints.) *)
Theorem binning_never_fails :
  (∀ props hoveredCell scale, ¬ fails (ReviewRhythm props hoveredCell scale))
  ∧ (∀ before dayStr hoursBefore hourStr c hoursAfter after,
       let input :=
         withEntry before dayStr hoursBefore hourStr c hoursAfter after in
       let k := cellKey (sub (parseInt dayStr) 1) (parseInt hourStr) in
       let later := entries ((dayStr, hoursAfter) :: after) in
       exactKeys input = true →
       (processData input).1 !! k
       = Some (default c (snd <$> last (filter (λ e, e.1 = k) later)))).
Proof.
  split; [apply ReviewRhythm_total|].
  intros before dayStr hoursBefore hourStr c hoursAfter after input k later _.
  subst input. unfold processData. rewrite processData_store.
  destruct (entries_split before dayStr hoursBefore hourStr c hoursAfter after)
    as (l1 & ->).
  fold k later. rewrite store_app. cbn [fold_left].
  rewrite store_last_match. cbn [store fst snd].
  destruct (last (filter (λ e, e.1 = k) later)) as [e|]; [done|].
  simpl. apply lookup_insert_eq.
Qed.

(** The two entries of [{"8": {"0": 5, "00": 6}}] have the key "7-0"; the
    Map holds under it the 6 of the second. *)
Lemma binning_never_fails_witness :
  exactKeys Samples.strayTwice = true
  ∧ (processData Samples.strayTwice).1 !! "7-0" = Some 6.
Proof.
  split; [reflexivity|].
  apply (proj2 binning_never_fails [] "8" [] "0" 5 [("00", 6)] []).
  reflexivity.
Defined.

(** C6.  The hover state holds at most one cell: entering a rect sets it to
    that rect's day, hour and count; leaving sets it to none; entering A and
    then B leaves B alone.  Accordingly at most one rect of the grid is
    drawn highlighted, and after entering A and then B a rect is highlighted
    exactly when it is at B's position. *)
Theorem hover_exclusive :
  (∀ i m scale hov dayIndex h,
     hoveredCell (step i (MouseEnter (renderCell m scale hov dayIndex h)))
     = Some {| day := dayIndex; hour := h;
               count := or_zero (m !! cellKey (Num dayIndex) (Num h)) |})
  ∧ (∀ i r, hoveredCell (step i (MouseLeave r)) = None)
  ∧ (∀ i a b,
       hoveredCell (run i [MouseEnter a; MouseEnter b]) = Some (onMouseEnter b))
  ∧ (∀ d scale hov,
       (length (highlightedRects (grid d scale hov)) ≤ 1)%nat)
  ∧ (∀ i a b d scale,
       Forall (λ r, highlighted r = true ↔ position r = position b)
         (grid d scale (hoveredCell (run i [MouseEnter a; MouseEnter b])))).
Proof.
  split_and!; try done.
  - intros d scale hov. apply highlighted_at_most_one.
  - intros i a b d scale. unfold grid. rewrite renderCells_allPairs.
    apply Forall_fmap, Forall_forall. intros [dayIndex h] _.
    apply isHovered_Some.
Qed.

(* The claim on the reset of the hover state concerns the component as the
   page mounts it; it is stated with the page, after the lemmas on the
   page. *)

(** C8.  With no hovered cell there is no tooltip.  With a hovered cell the
    tooltip is anchored at the horizontal centre of that cell,
    [x = Y_AXIS_WIDTH + hour * (CELL_SIZE + CELL_PADDING) + CELL_SIZE / 2],
    and strictly above its top edge,
    [y < X_AXIS_HEIGHT + day * (CELL_SIZE + CELL_PADDING)]; these are the
    centre and the top of the rect drawn for that cell, taken with the
    translation of the group of cells. *)
Theorem tooltip_anchor :
  renderTooltip None = None
  ∧ (∀ e d scale, ∃ chart scale',
       ReviewRhythm (payload (e :: d)) None scale = inr (Heatmap chart, scale')
       ∧ tooltip chart = None)
  ∧ (∀ c : Cell, ∃ tip,
       renderTooltip (Some c) = Some tip
       ∧ left tip
         = Y_AXIS_WIDTH + hour c * (CELL_SIZE + CELL_PADDING) + CELL_SIZE / 2
       ∧ top tip < X_AXIS_HEIGHT + day c * (CELL_SIZE + CELL_PADDING)
       ∧ reviews tip = count c
       ∧ ∀ e d scale, ∃ chart scale',
           ReviewRhythm (payload (e :: d)) (Some c) scale
           = inr (Heatmap chart, scale')
           ∧ tooltip chart = Some tip
           ∧ ∀ m scale'' hov,
               let r := renderCell m scale'' hov (day c) (hour c) in
               let corner := absolute (translate (cells chart)) (x r) (y r) in
               2 * left tip = 2 * corner.1 + width r
               ∧ top tip < corner.2).
Proof.
  split_and!.
  - done.
  - intros e d scale.
    destruct (ReviewRhythm_heatmap e d None scale) as (chart & Hr & _ & _ & Htip).
    by eexists _, _.
  - intros c. eexists. split; [reflexivity|]. cbn [left top reviews].
    split_and!; [done|lia|done|].
    intros e d scale.
    destruct (ReviewRhythm_heatmap e d (Some c) scale)
      as (chart & Hr & Hcells & _ & Htip).
    eexists _, _. split_and!; [exact Hr|exact Htip|].
    intros m scale'' hov. rewrite Hcells.
    unfold absolute, renderCell, CELL_SIZE, CELL_PADDING,
      Y_AXIS_WIDTH, X_AXIS_HEIGHT.
    cbn [translate x y width fst snd]. change (18 / 2) with 9. lia.
Qed.

(** C9, as stated, fails: the label of hour 0 is not at the horizontal start
    of its column, which is at 40; it is at 49. *)
Lemma hour_label_not_at_column_start :
  ∃ t, renderXLabel 0 = Some t
       ∧ Y_AXIS_WIDTH + text_x t = 49
       ∧ Y_AXIS_WIDTH + 0 * (CELL_SIZE + CELL_PADDING) = 40
       ∧ Y_AXIS_WIDTH + text_x t ≠ Y_AXIS_WIDTH + 0 * (CELL_SIZE + CELL_PADDING).
Proof. eexists. split; [reflexivity|]. by vm_compute. Qed.

(** C9, amended.  Hour-axis labels are produced exactly for the hours h in
    0..23 with h mod 3 = 0, and each such label is centred on its column: its
    anchor is the middle of the text and sits at
    [x = Y_AXIS_WIDTH + h * (CELL_SIZE + CELL_PADDING) + CELL_SIZE / 2], the
    horizontal centre of the rects of hour h, the group of labels having the
    horizontal translation of the group of cells. *)
Theorem hour_labels_centred :
  hoursOfDay = seqZ 0 24
  ∧ omap renderXLabel hoursOfDay
    = (λ h, {| text_key := "x-label-" +:+ pretty h;
               text_x := h * (CELL_SIZE + CELL_PADDING) + CELL_SIZE / 2;
               text_y := X_AXIS_HEIGHT - 8;
               textAnchor := "middle";
               content := pretty h +:+ ":00" |})
      <$> [0; 3; 6; 9; 12; 15; 18; 21]
  ∧ Forall (λ h,
       (is_Some (renderXLabel h) ↔ h `mod` 3 = 0)
       ∧ ∀ t, renderXLabel h = Some t →
           textAnchor t = "middle"
           ∧ text_x t = h * (CELL_SIZE + CELL_PADDING) + CELL_SIZE / 2
           ∧ ∀ m scale hov dayIndex,
               let r := renderCell m scale hov dayIndex h in
               2 * text_x t = 2 * x r + width r) hoursOfDay
  ∧ (∀ e d hov scale, ∃ chart scale',
       ReviewRhythm (payload (e :: d)) hov scale = inr (Heatmap chart, scale')
       ∧ children (xLabels chart) = renderXLabel <$> hoursOfDay
       ∧ (translate (xLabels chart)).1 = Y_AXIS_WIDTH
       ∧ (translate (cells chart)).1 = Y_AXIS_WIDTH).
Proof.
  split_and!.
  - reflexivity.
  - reflexivity.
  - apply Forall_forall. intros h Hh.
    assert (0 ≤ h < 24) as Hrange.
    { change hoursOfDay with (seqZ 0 24) in Hh. apply elem_of_seqZ in Hh. lia. }
    unfold renderXLabel. rewrite Z.rem_mod_nonneg by lia.
    destruct (Z.eqb_spec (h `mod` 3) 0) as [Hmod|Hmod].
    + split; [by split|]. intros t [= <-]. cbn [textAnchor text_x].
      split_and!; [done..|]. intros m scale hov dayIndex.
      unfold renderCell, CELL_SIZE. cbn [x width].
      change (18 / 2) with 9. lia.
    + split; [|done]. split; [by intros [? [=]]|done].
  - intros e d hov scale.
    destruct (ReviewRhythm_heatmap e d hov scale)
      as (chart & Hr & Hcells & Hlabels & _).
    eexists _, _. split; [exact Hr|]. by rewrite Hcells, Hlabels.
Qed.

(** C10, as stated, fails: in an input with two entries under out-of-range
    day keys, counts 10 and 20, and one in-range entry of count 5, the count
    10 exceeds every in-range count and yet the upper end of the colour
    domain is 20, not 10.  Likewise a lone out-of-range entry of count 0
    leaves the domain ending at 1, not 0. *)
Lemma stray_count_need_not_be_the_max :
  inRange (parseInt "8") (parseInt "0") = false
  ∧ inRange (parseInt "9") (parseInt "0") = false
  ∧ inRange (parseInt "1") (parseInt "0") = true
  ∧ Samples.twoStrays
    = [("1", [("0", 5)]); ("8", [("0", 10)]); ("9", [("0", 20)])]
  ∧ 5 < 10
  ∧ domainMax Samples.twoStrays = 20
  ∧ domainMax Samples.twoStrays ≠ 10
  ∧ Samples.zeroStray = [("8", [("0", 0)])]
  ∧ domainMax Samples.zeroStray = 1
  ∧ domainMax Samples.zeroStray ≠ 0.
Proof. by vm_compute. Qed.

(** C10, amended.  For an entry with count c under a day key that parses
    outside [1,7] or an hour key that parses outside [0,23]: the cells of
    the grid are those of the input without the entry, so no cell carries c
    from it; yet c takes part in the maximum of the colour domain, which is
    the larger of c and the maximum without the entry, so it is at least c,
    and it equals c when c is at least 1 and at least every other count of
    the input. *)
Theorem stray_entry_stretches_domain (before : DayHours) (dayStr : string)
    (hoursBefore : HourCounts) (hourStr : string) (c : Z)
    (hoursAfter : HourCounts) (after : DayHours) :
  inRange (parseInt dayStr) (parseInt hourStr) = false →
  let input := withEntry before dayStr hoursBefore hourStr c hoursAfter after in
  let rest := without before dayStr hoursBefore hoursAfter after in
  (∀ scale hov scale' hov',
     onMouseEnter <$> grid input scale hov
     = onMouseEnter <$> grid rest scale' hov')
  ∧ domainMax input = Z.max c (domainMax rest)
  ∧ c ≤ domainMax input
  ∧ (1 ≤ c → Forall (λ c', c' ≤ c) (allCounts rest) → domainMax input = c).
Proof.
  intros Hout input rest.
  assert (domainMax input = Z.max c (domainMax rest)) as Hmax.
  { rewrite !domainMax_foldr. subst input rest.
    destruct (allCounts_withEntry before dayStr hoursBefore hourStr c
                hoursAfter after) as (l1 & l2 & -> & ->).
    apply foldr_max_middle. }
  split_and!.
  - intros scale hov scale' hov'. rewrite !carried_grid.
    apply list_fmap_ext. intros _ [dayIndex h] Hin%list_elem_of_lookup_2.
    cbn [fst snd]. do 2 f_equal.
    subst input rest. unfold processData. rewrite !processData_store.
    destruct (entries_withEntry before dayStr hoursBefore hourStr c
                hoursAfter after) as (l1 & l2 & -> & ->).
    apply store_without. by apply stray_key.
  - done.
  - lia.
  - intros Hc Hall. rewrite Hmax.
    pose proof (foldr_max_bound 1 _ c Hc Hall) as Hle.
    rewrite <-domainMax_foldr in Hle. lia.
Qed.

(** The entry of count 10 under day key "8" in
    [{"1": {"0": 5}, "8": {"0": 10}}]. *)
Lemma stray_entry_stretches_domain_witness :
  let input := Samples.oneStray in
  let rest := without [("1", [("0", 5)])] "8" [] [] [] in
  (∀ scale hov scale' hov',
     onMouseEnter <$> grid input scale hov
     = onMouseEnter <$> grid rest scale' hov')
  ∧ domainMax input = Z.max 10 (domainMax rest)
  ∧ 10 ≤ domainMax input
  ∧ (1 ≤ 10 → Forall (λ c', c' ≤ 10) (allCounts rest) → domainMax input = 10).
Proof.
  apply (stray_entry_stretches_domain [("1", [("0", 5)])] "8" [] "0" 10 [] []).
  vm_compute. reflexivity.
Defined.

(** White space before the digits of a key is skipped, whatever its kind:
    the day key of [{"\u00A01": {"0": 5}}] parses to 1, so its entry is no
    stray one and the cell (0, 0) carries its count. *)
Example scenario_padded_key :
  inRange (parseInt (utf8 0xA0 +:+ "1")) (parseInt "0") = true
  ∧ carried <$> (grid Samples.paddedDay colorScale None !! 0%nat) = Some 5.
Proof. by vm_compute. Qed.

(** * Further properties of the code *)

(** ** ReviewRhythm: the chart as a whole *)

Section Chart.

(** The whole element drawn for a non-empty data object. *)
Lemma ReviewRhythm_chart e d hov scale :
  let scale' := D3.set_domain (0, domainMax (e :: d)) scale in
  ReviewRhythm (payload (e :: d)) hov scale
  = inr (Heatmap
           {| chartWidth := 496; chartHeight := 163;
              cells :=
                {| translate := (Y_AXIS_WIDTH, X_AXIS_HEIGHT);
                   children := renderCells (processData (e :: d)).1 scale' hov |};
              yLabels :=
                {| translate := (0, X_AXIS_HEIGHT); children := renderYLabels |};
              xLabels :=
                {| translate := (Y_AXIS_WIDTH, 0);
                   children := renderXLabel <$> hoursOfDay |};
              tooltip := renderTooltip hov |},
         scale').
Proof.
  unfold payload, ReviewRhythm, noData, domainMax.
  change (truthy (Object ?a)) with true.
  cbn [negb member bind ret Object_keys data for_in fmap list_fmap length Nat.eqb].
  destruct (processData (e :: d)) as [m mx]. reflexivity.
Qed.

Lemma elem_of_grid r d scale hov :
  r ∈ grid d scale hov →
  ∃ dayIndex h,
    0 ≤ dayIndex ≤ 6 ∧ 0 ≤ h ≤ 23
    ∧ r = renderCell (processData d).1 scale hov dayIndex h.
Proof.
  unfold grid. rewrite renderCells_allPairs.
  intros ([dayIndex h] & -> & Hin%elem_of_allPairs)%list_elem_of_fmap.
  exists dayIndex, h. split_and!; [lia..|done].
Qed.

Lemma store_lookup_origin l acc k c :
  (fold_left store l acc).1 !! k = Some c → c ∈ l.*2 ∨ acc.1 !! k = Some c.
Proof.
  revert acc. induction l as [|[k' c'] l IH]; intros acc; [by right|].
  simpl. intros [Hin|Hacc]%IH; [left; by right|]. simpl in Hacc.
  rewrite lookup_insert in Hacc. case_decide; [|by right].
  injection Hacc as ->. left. by left.
Qed.

Lemma foldr_max_ge a l c : c ∈ l → c ≤ foldr Z.max a l.
Proof. induction 1; simpl; lia. Qed.

Lemma foldr_max_floor a l : a ≤ foldr Z.max a l.
Proof. induction l; simpl; lia. Qed.

End Chart.

Section LastEntry.

Lemma countsFor_entries d dayIndex h :
  (filter (λ e, e.1 = cellKey (Num dayIndex) (Num h)) (entries d)).*2
  = countsFor d dayIndex h.
Proof.
  unfold entries, countsFor.
  induction d as [|[dayStr hours] d IH]; [done|].
  rewrite !bind_cons, filter_app, fmap_app, IH. f_equal. cbn [fst snd].
  assert (∀ hourStr,
            cellKey (sub (parseInt dayStr) 1) (parseInt hourStr)
            = cellKey (Num dayIndex) (Num h)
            ↔ parseInt dayStr = Num (dayIndex + 1) ∧ parseInt hourStr = Num h)
    as Hkey.
  { intros hourStr. split.
    - intros [Hd Hh]%cellKey_inj.
      destruct (parseInt dayStr) as [|z]; [done|]. injection Hd as <-.
      split; [f_equal; lia|done].
    - intros [-> ->]. cbn [sub].
      by replace (dayIndex + 1 - 1) with dayIndex by lia. }
  induction hours as [|[hourStr c] hours IHh]; [done|].
  rewrite fmap_cons, filter_cons, bind_cons, <-IHh. cbn [fst snd].
  specialize (Hkey hourStr).
  repeat case_decide; simpl in *; try done; exfalso; tauto.
Qed.

Lemma countsFor_allCounts d dayIndex h c :
  c ∈ countsFor d dayIndex h → c ∈ allCounts d.
Proof.
  rewrite <-countsFor_entries, <-entries_counts.
  intros ([k c'] & -> & [_ Hin]%list_elem_of_filter)%list_elem_of_fmap.
  apply list_elem_of_fmap. by exists (k, c').
Qed.

End LastEntry.

(** X1.  No rendered cell carries more than the upper end of the colour
    domain, whatever the keys and counts of the input, so no cell of the
    heatmap is ever coloured by clamping from above; when no count of the
    input is negative, every rendered count lies inside the domain
    [0, domainMax]. *)
Theorem rendered_counts_within_domain :
  (∀ d scale hov, Forall (λ r, carried r ≤ domainMax d) (grid d scale hov))
  ∧ (∀ d scale hov,
       Forall (λ c, 0 ≤ c) (allCounts d) →
       Forall (λ r, 0 ≤ carried r ≤ domainMax d) (grid d scale hov)).
Proof.
  assert (∀ d scale hov r, r ∈ grid d scale hov →
            carried r = 0 ∨ carried r ∈ allCounts d) as Horigin.
  { intros d scale hov r (dayIndex & h & _ & _ & ->)%elem_of_grid.
    unfold carried, renderCell. cbn [onMouseEnter count].
    rewrite or_zero_default.
    destruct ((processData d).1 !! _) as [c|] eqn:Hc; [|by left].
    right. unfold processData in Hc. rewrite processData_store in Hc.
    apply store_lookup_origin in Hc as [Hc|Hc]; [|done].
    by rewrite entries_counts in Hc. }
  assert (∀ d c, c ∈ allCounts d → c ≤ domainMax d) as Hle.
  { intros d c Hc. rewrite domainMax_foldr. by apply foldr_max_ge. }
  assert (∀ d, 1 ≤ domainMax d) as Hfloor.
  { intros d. rewrite domainMax_foldr. apply foldr_max_floor. }
  split.
  - intros d scale hov. apply Forall_forall. intros r Hr.
    destruct (Horigin d scale hov r Hr) as [->|Hc]; [|by apply Hle].
    specialize (Hfloor d). lia.
  - intros d scale hov Hpos. apply Forall_forall. intros r Hr.
    rewrite Forall_forall in Hpos.
    destruct (Horigin d scale hov r Hr) as [->|Hc].
    + specialize (Hfloor d). lia.
    + split; [by apply Hpos|by apply Hle].
Qed.

(** X2.  Each cell carries the count of the last entry, in the order of
    enumeration, whose day and hour keys parse to that cell, and 0 when no
    entry does: of several entries that name the same cell (by keys that
    [parseInt] reads alike, such as "1" and "01") the one met last wins,
    wherever it stands in the input.  The counts it replaced are not lost
    to the colour domain: every count that names the cell, shown or not, is
    at most the upper end of the domain. *)
Theorem last_entry_wins_its_cell (d : DayHours) (scale : D3.Scale)
    (hov : option Cell) :
  Forall (λ r,
    let counts := countsFor d (position r).1 (position r).2 in
    carried r = default 0 (last counts)
    ∧ Forall (λ c, c ≤ domainMax d) counts) (grid d scale hov).
Proof.
  apply Forall_forall. intros r (dayIndex & h & _ & _ & ->)%elem_of_grid.
  unfold position, carried, renderCell. cbn [onMouseEnter day hour count].
  split.
  - rewrite or_zero_default. unfold processData.
    rewrite processData_store, store_last_match. cbn [fst].
    rewrite lookup_empty, <-countsFor_entries, fmap_last.
    by destruct (last (filter _ (entries d))).
  - apply Forall_forall. intros c Hc%countsFor_allCounts.
    rewrite domainMax_foldr. by apply foldr_max_ge.
Qed.

(** In [{"1": {"9": 5}, "01": {"9": 7}, "x": {"0": 1}}] the days "1" and
    "01" both name row 0: the cell (0, 9) carries the 7 of the later one,
    though another entry follows it, and the 5 it replaced is below the
    upper end of the domain. *)
Example scenario_same_cell :
  countsFor Samples.sameCell 0 9 = [5; 7]
  ∧ carried <$> (grid Samples.sameCell colorScale None !! 9%nat) = Some 7
  ∧ domainMax Samples.sameCell = 7.
Proof. by vm_compute. Qed.

(** X3.  The guard alone decides what is rendered: without data (absent,
    null or keyless) the call returns the fallback paragraph and leaves the
    shared scale alone; otherwise it returns a heatmap of 7 rows of 24
    rects and moves the domain of the shared scale, and the heatmap has a
    tooltip exactly when a cell is hovered. *)
Theorem heatmap_iff_data_has_a_key (props : maybe Payload)
    (hov : option Cell) (scale : D3.Scale) :
  (noDataAvailable props
   ∧ ReviewRhythm props hov scale
     = inr (Fallback "Review rhythm data is not available.", scale))
  ∨ (¬ noDataAvailable props
     ∧ ∃ e d chart,
         props = payload (e :: d)
         ∧ ReviewRhythm props hov scale
           = inr (Heatmap chart, D3.set_domain (0, domainMax (e :: d)) scale)
         ∧ length (children (cells chart)) = 7%nat
         ∧ Forall (λ row, length row = 24%nat) (children (cells chart))
         ∧ (is_Some (tooltip chart) ↔ is_Some hov)).
Proof.
  destruct props as [| |[[| |[|e d]]]].
  - left. split; [by left|done].
  - left. split; [right; by left|done].
  - left. split; [|done]. right. right. eexists. split; [done|]. by left.
  - left. split; [|done]. right. right. eexists. split; [done|]. right. by left.
  - left. split; [|done]. right. right. eexists. split; [done|]. right. by right.
  - right. split.
    + intros [?|[?|(f & [= <-] & [?|[?|?]])]]; done.
    + exists e, d. eexists. split; [done|]. split; [apply ReviewRhythm_chart|].
      cbn [cells children tooltip]. split_and!.
      * unfold renderCells. by rewrite length_imap.
      * apply Forall_forall. intros row (i & Hrow)%list_elem_of_lookup_1.
        apply list_lookup_imap_Some in Hrow as (? & _ & ->).
        by rewrite length_fmap.
      * destruct hov; simpl; split; intros [? ?]; (done || by eexists).
Qed.

(** X4.  The element rendered does not depend on the domain an earlier
    render left in the shared scale, and the hover state changes nothing
    but the emphasis of a rect and the tooltip: position, size, fill and
    handlers of every rect, both axes and the size of the chart are the same
    for any two hover states. *)
Theorem render_ignores_old_domain_and_hover_only_highlights :
  (∀ props hov scale dom,
     Frame.elementOf (ReviewRhythm props hov (D3.set_domain dom scale))
     = Frame.elementOf (ReviewRhythm props hov scale))
  ∧ (∀ e d hov hov' scale,
       ∃ chart chart' scale',
         ReviewRhythm (payload (e :: d)) hov scale = inr (Heatmap chart, scale')
         ∧ ReviewRhythm (payload (e :: d)) hov' scale
           = inr (Heatmap chart', scale')
         ∧ Frame.unhovered chart = Frame.unhovered chart').
Proof.
  split.
  - intros props hov scale dom.
    by destruct props as [| |[[| |[|e d]]]].
  - intros e d hov hov' scale. eexists _, _, _.
    split; [apply ReviewRhythm_chart|]. split; [apply ReviewRhythm_chart|].
    reflexivity.
Qed.

(** X5.  Every rect lies inside the chart, right of the day-label gutter
    and below the hour-label gutter, and two rects at different positions
    never touch: there is a gap between them along x or along y. *)
Theorem cells_fit_and_never_overlap (e : string * HourCounts) (d : DayHours)
    (hov : option Cell) (scale : D3.Scale) :
  ∃ chart scale',
    ReviewRhythm (payload (e :: d)) hov scale = inr (Heatmap chart, scale')
    ∧ let rects := concat (children (cells chart)) in
      let corner r := absolute (translate (cells chart)) (x r) (y r) in
      Forall (λ r,
        Y_AXIS_WIDTH ≤ (corner r).1
        ∧ (corner r).1 + width r ≤ chartWidth chart
        ∧ X_AXIS_HEIGHT ≤ (corner r).2
        ∧ (corner r).2 + height r ≤ chartHeight chart) rects
      ∧ ∀ r1 r2, r1 ∈ rects → r2 ∈ rects → position r1 ≠ position r2 →
          x r1 + width r1 < x r2 ∨ x r2 + width r2 < x r1
          ∨ y r1 + height r1 < y r2 ∨ y r2 + height r2 < y r1.
Proof.
  eexists _, _. split; [apply ReviewRhythm_chart|].
  cbn [cells children translate chartWidth chartHeight].
  fold (grid (e :: d) (D3.set_domain (0, domainMax (e :: d)) scale) hov).
  split.
  - apply Forall_forall.
    intros r (dayIndex & h & Hd & Hh & ->)%elem_of_grid.
    unfold absolute, renderCell, CELL_SIZE, CELL_PADDING, Y_AXIS_WIDTH,
      X_AXIS_HEIGHT. cbn [x y width height fst snd]. lia.
  - intros r1 r2 (d1 & h1 & ? & ? & ->)%elem_of_grid
      (d2 & h2 & ? & ? & ->)%elem_of_grid Hne.
    unfold position, renderCell, CELL_SIZE, CELL_PADDING in *.
    cbn [x y width height onMouseEnter day hour] in *.
    assert (d1 ≠ d2 ∨ h1 ≠ h2) as [?|?]; [|lia..].
    destruct (decide (d1 = d2)) as [->|]; [|by left].
    right. intros ->. by apply Hne.
Qed.

(** X6.  The day labels are the seven names in order, one per row of
    cells, in a group that starts at the same height as the cells; each is
    anchored by its end inside the gutter left of the cells and sits at the
    vertical middle of the rects of its row. *)
Theorem day_labels_centred_on_rows (e : string * HourCounts) (d : DayHours)
    (hov : option Cell) (scale : D3.Scale) :
  ∃ chart scale',
    ReviewRhythm (payload (e :: d)) hov scale = inr (Heatmap chart, scale')
    ∧ content <$> children (yLabels chart) = daysOfWeek
    ∧ length (children (cells chart)) = length (children (yLabels chart))
    ∧ (translate (yLabels chart)).2 = (translate (cells chart)).2
    ∧ ∀ i row label,
        children (cells chart) !! i = Some row →
        children (yLabels chart) !! i = Some label →
        length row = 24%nat
        ∧ textAnchor label = "end"
        ∧ 0 < (translate (yLabels chart)).1 + text_x label
            < (translate (cells chart)).1
        ∧ Forall (λ r, 2 * text_y label = 2 * y r + height r) row.
Proof.
  eexists _, _. split; [apply ReviewRhythm_chart|].
  cbn [yLabels cells children translate].
  split_and!; [done..|].
  intros i row label Hrow Hlabel.
  apply list_lookup_imap_Some in Hrow as (dayLabel & Hday & ->).
  apply list_lookup_imap_Some in Hlabel as (dayLabel' & _ & ->).
  cbn [textAnchor text_x text_y].
  split; [by rewrite length_fmap|]. split; [done|]. split; [done|].
  apply Forall_fmap, Forall_forall. intros h _.
  unfold compose, renderCell, CELL_SIZE, CELL_PADDING. cbn [y height].
  change (18 `div` 2) with 9. lia.
Qed.

(** X7.  Entering any rect of the grid gives a tooltip that names that
    rect's day by its label, its hour as the range from [h]:00 to
    [h + 1]:00, and the count the rect carries. *)
Theorem tooltip_names_the_hovered_cell (d : DayHours) (scale : D3.Scale)
    (hov : option Cell) :
  Forall (λ r,
    ∃ dayLabel tip,
      daysOfWeek !! Z.to_nat (position r).1 = Some dayLabel
      ∧ renderTooltip (hoveredCell (step (mount (payload d)) (MouseEnter r)))
        = Some tip
      ∧ title tip
        = dayLabel +:+ ", " +:+ pretty (position r).2 +:+ ":00 - "
          +:+ pretty ((position r).2 + 1) +:+ ":00"
      ∧ reviews tip = carried r) (grid d scale hov).
Proof.
  apply Forall_forall. intros r (dayIndex & h & Hd & Hh & ->)%elem_of_grid.
  assert (is_Some (daysOfWeek !! Z.to_nat dayIndex)) as [dayLabel Hlabel].
  { apply lookup_lt_is_Some. simpl. lia. }
  exists dayLabel. eexists. unfold position, carried. cbn [step setHoveredCell
    hoveredCell onMouseEnter renderCell day hour count renderTooltip].
  split; [done|]. split; [reflexivity|]. cbn [title reviews].
  destruct (Z.leb_spec 0 dayIndex); [|lia]. rewrite Hlabel. done.
Qed.

(** ** CuisineDiversity (my-app/src/components/CuisineDiversity.js) *)

(** ** Facts about sorting with a comparator *)

Section Sorting.
Import Std.
Context {A : Type} (compareFn : A → A → Z).

Lemma insert_perm a l : insert compareFn a l ≡ₚ a :: l.
Proof.
  induction l as [|b l IH]; [done|]. simpl. case_match; [done|].
  rewrite IH. apply Permutation_swap.
Qed.

Lemma sort_perm l : sort compareFn l ≡ₚ l.
Proof.
  induction l as [|a l IH]; [done|]. simpl. by rewrite insert_perm, IH.
Qed.

Lemma length_sort l : length (sort compareFn l) = length l.
Proof. by rewrite sort_perm. Qed.

Lemma elem_of_sort a l : a ∈ sort compareFn l ↔ a ∈ l.
Proof. by rewrite sort_perm. Qed.

(** The comparator is consistent on the elements that satisfy [good]. *)
Context (good : A → Prop).
Hypothesis compare_total :
  ∀ a b, good a → good b → 0 < compareFn a b → compareFn b a ≤ 0.
Hypothesis compare_trans :
  ∀ a b c, good a → good b → good c →
    compareFn a b ≤ 0 → compareFn b c ≤ 0 → compareFn a c ≤ 0.

Lemma insert_sorted a l :
  good a → Forall good l →
  StronglySorted (before compareFn) l → StronglySorted (before compareFn) (insert compareFn a l).
Proof.
  intros Ha Hl Hsorted. induction Hsorted as [|b l Hsorted IH Hb]; simpl.
  - repeat constructor.
  - apply Forall_cons in Hl as [Hgb Hl].
    destruct (Z.leb_spec (compareFn a b) 0) as [Hab|Hab].
    + constructor; [by constructor|]. constructor; [done|]. unfold before.
      rewrite Forall_forall in Hb, Hl. apply Forall_forall. intros c Hc.
      eapply (compare_trans a b c); auto. by apply Hb.
    + constructor; [by apply IH|].
      rewrite insert_perm. constructor; [|done].
      by apply compare_total.
Qed.

Lemma sort_sorted l : Forall good l → StronglySorted (before compareFn) (sort compareFn l).
Proof.
  induction 1 as [|a l Ha Hl IH]; simpl; [constructor|].
  apply insert_sorted; [done| |done].
  apply Forall_forall. intros b Hb. rewrite elem_of_sort in Hb.
  rewrite Forall_forall in Hl. by apply Hl.
Qed.

(** Sorting keeps in place, relative to one another, the elements of a class
    that the comparator never puts one before the other. *)
Lemma filter_insert (P : A → Prop) `{!∀ a, Decision (P a)} a l :
  (∀ b, P a → P b → compareFn a b ≤ 0) →
  filter P (insert compareFn a l) = filter P (a :: l).
Proof.
  intros Hclass. induction l as [|b l IH]; [done|]. simpl.
  destruct (Z.leb_spec (compareFn a b) 0) as [Hab|Hab]; [done|].
  rewrite (filter_cons _ b), IH, !(filter_cons _ a), (filter_cons _ b).
  destruct (decide (P a)) as [Ha|Ha]; [|done].
  destruct (decide (P b)) as [Hb|Hb]; [|done].
  specialize (Hclass b Ha Hb). lia.
Qed.

Lemma filter_sort (P : A → Prop) `{!∀ a, Decision (P a)} l :
  (∀ a b, P a → P b → compareFn a b ≤ 0) →
  filter P (sort compareFn l) = filter P l.
Proof.
  intros Hclass. induction l as [|a l IH]; [done|]. simpl.
  rewrite filter_insert by auto. by rewrite !(filter_cons _ a), IH.
Qed.

End Sorting.

Section Prefix.
Context {A : Type} (P : A → Prop) `{!∀ a, Decision (P a)}.

Lemma filter_take_prefix n (l : list A) :
  filter P (take n l) `prefix_of` filter P l.
Proof.
  rewrite <-(take_drop n l) at 2. rewrite filter_app. by eexists.
Qed.

End Prefix.

Section CuisineFacts.
Import Std Cuisine.

Lemma CuisineDiversity_shown entries q :
  CuisineDiversity
    (Object {| category_counts := Object entries; diversity_score := ScoreNum q |})
  = inr (Shown
      {| topCount :=
           if (0 <? length (sortedCategories entries))%nat
           then pretty (Nat.min (length (sortedCategories entries)) 10) else "";
         items :=
           if (0 <? length (sortedCategories entries))%nat
           then Some (renderItem <$> sortedCategories entries) else None;
         scoreText := toFixed q 2;
         diversityLevel := levelOf (ScoreNum q) |}).
Proof. reflexivity. Qed.

Lemma length_sortedCategories entries :
  length (sortedCategories entries) = Nat.min 10 (length entries).
Proof. unfold sortedCategories. by rewrite length_take, length_sort. Qed.

End CuisineFacts.

(** X8.  The categories listed are the ten largest (all of them when there
    are fewer): they are in descending order of count, every category left
    out has a count no larger than each one listed, categories of equal
    count keep the order of the object, and the list shows each with its
    count and "reviews" exactly when the count exceeds 1.  The heading
    shows how many are listed; with no category there is no list and no
    number. *)
Theorem top_categories_are_the_ten_largest (entries : props Z) (q : Q) :
  let top := Cuisine.sortedCategories entries in
  length top = Nat.min 10 (length entries)
  ∧ StronglySorted (λ a b, b.2 ≤ a.2) top
  ∧ (∃ rest, entries ≡ₚ top ++ rest
             ∧ Forall (λ b, Forall (λ a, b.2 ≤ a.2) top) rest)
  ∧ (∀ c, filter (λ e, e.2 = c) top `prefix_of` filter (λ e, e.2 = c) entries)
  ∧ ∃ p,
      Cuisine.CuisineDiversity
        (Object {| Cuisine.category_counts := Object entries;
                   Cuisine.diversity_score := Cuisine.ScoreNum q |})
      = inr (Cuisine.Shown p)
      ∧ match Cuisine.items p with
        | None => entries = [] ∧ Cuisine.topCount p = ""
        | Some its =>
            entries ≠ []
            ∧ (λ i, (Cuisine.category i, Cuisine.count i)) <$> its = top
            ∧ Cuisine.topCount p = pretty (length its)
            ∧ Forall (λ i,
                Cuisine.unit i
                = if decide (1 < Cuisine.count i) then "reviews" else "review")
                its
        end.
Proof.
  intros top.
  assert (StronglySorted (Std.before (λ a b : string * Z, b.2 - a.2))
            (Std.sort (λ a b, b.2 - a.2) entries)) as Hsorted.
  { apply (sort_sorted _ (λ _, True)); [intros; lia..|].
    by apply Forall_forall. }
  assert (∀ l : props Z,
            StronglySorted (Std.before (λ a b : string * Z, b.2 - a.2)) l →
            StronglySorted (λ a b : string * Z, b.2 ≤ a.2) l) as Hrel.
  { intros l. induction 1 as [|a l _ IH Ha]; constructor; [done|].
    eapply Forall_impl; [exact Ha|]. unfold Std.before. simpl. intros; lia. }
  split_and!.
  - apply length_sortedCategories.
  - apply Hrel. unfold top, Cuisine.sortedCategories.
    rewrite <-(take_drop 10 (Std.sort _ entries)) in Hsorted.
    by apply StronglySorted_app_1_l in Hsorted.
  - exists (drop 10 (Std.sort (λ a b, b.2 - a.2) entries)). split.
    + unfold top, Cuisine.sortedCategories. by rewrite take_drop, sort_perm.
    + apply Hrel in Hsorted.
      rewrite <-(take_drop 10 (Std.sort _ entries)) in Hsorted.
      apply Forall_forall. intros b Hb. apply Forall_forall. intros a Ha.
      by eapply (StronglySorted_app_1_elem_of _ _ _ a b Hsorted).
  - intros c. unfold top, Cuisine.sortedCategories.
    rewrite <-(filter_sort (λ a b, b.2 - a.2) (λ e : string * Z, e.2 = c) entries)
      by (intros a b -> ->; lia).
    apply filter_take_prefix.
  - eexists. split; [apply CuisineDiversity_shown|].
    cbn [Cuisine.items Cuisine.topCount].
    rewrite length_sortedCategories.
    destruct entries as [|e entries].
    + done.
    + replace (0 <? Nat.min 10 (length (e :: entries)))%nat with true
        by (symmetry; apply Nat.ltb_lt; simpl; lia).
      split_and!.
      * done.
      * rewrite <-list_fmap_compose. etrans; [|apply list_fmap_id].
        apply list_fmap_ext. by intros _ [? ?] _.
      * rewrite length_fmap, length_sortedCategories. f_equal. lia.
      * apply Forall_fmap, Forall_forall. intros [category count] _.
        unfold Cuisine.renderItem, compose. simpl.
        destruct (Z.gtb_spec count 1); case_decide; (done || lia).
Qed.

(** X9.  The guard lets through a [diversity_score] that is [null]: the
    render then throws a TypeError at [toFixed].  Otherwise the call returns
    the fallback (no data, no [category_counts], or an undefined score) or
    the panel, whose level is "Low Diversity" below 1, "Medium Diversity"
    from 1 up to 2 and "High Diversity" from 2 on. *)
Theorem cuisine_guard_levels_and_null_score (data : maybe Cuisine.Data) :
  let result := Cuisine.CuisineDiversity data in
  (result = inr (Cuisine.Fallback "Cuisine diversity data is not available.")
   ∧ (data = Undefined ∨ data = Null
      ∨ ∃ d, data = Object d
             ∧ (Cuisine.category_counts d = Undefined
                ∨ Cuisine.category_counts d = Null
                ∨ Cuisine.diversity_score d = Cuisine.ScoreUndefined)))
  ∨ (result = inl TypeError
     ∧ ∃ entries,
         data = Object {| Cuisine.category_counts := Object entries;
                          Cuisine.diversity_score := Cuisine.ScoreNull |})
  ∨ (∃ entries q p,
       data = Object {| Cuisine.category_counts := Object entries;
                        Cuisine.diversity_score := Cuisine.ScoreNum q |}
       ∧ result = inr (Cuisine.Shown p)
       ∧ Cuisine.scoreText p = Std.toFixed q 2
       ∧ (Cuisine.diversityLevel p = "Low Diversity" ↔ (q < 1)%Q)
       ∧ (Cuisine.diversityLevel p = "Medium Diversity" ↔ (1 <= q < 2)%Q)
       ∧ (Cuisine.diversityLevel p = "High Diversity" ↔ (2 <= q)%Q)).
Proof.
  intros result. subst result.
  destruct data as [| |[[| |entries] [| |q]]].
  all: try (left; split; [reflexivity|]; eauto 10; fail).
  - right. left. split; [reflexivity|]. by eexists.
  - right. right. exists entries, q. eexists.
    split; [done|]. split; [apply CuisineDiversity_shown|].
    cbn [Cuisine.scoreText Cuisine.diversityLevel]. split; [done|].
    unfold Cuisine.levelOf, Cuisine.less.
    destruct (Qlt_le_dec q 1) as [H1|H1]; destruct (Qlt_le_dec q 2) as [H2|H2];
      (split; [|split]); split; try done; try lra; intros [??]; lra.
Qed.

(** ** SentimentTimeline (my-app/src/components/SentimentTimeline.js) *)

Section Rounding.
Import Std.
Local Open Scope Q_scope.










End Rounding.

Section SentimentFacts.
Import Std Sentiment.






End SentimentFacts.




(** What [parseFloat(x.toFixed(2))] gives for 0.125, 0.1 + 0.2, 1.005 and
    -0.001: the Numbers nearest to 0.13, 0.3, 1 and 0; and in
    [{"2020": null}] the score that is no Number makes the call throw. *)
Example scenario_mood_scores :
  Sentiment.reread (Sentiment.Finite (1 # 8))
  = Sentiment.Finite (Std.double (13 # 100))
  ∧ Std.double (13 # 100) = (1170935903116329 # 9007199254740992)%Q
  ∧ Sentiment.reread
      (Sentiment.Finite
         (Std.double (Std.double (1 # 10) + Std.double (2 # 10))))
    = Sentiment.Finite (Std.double (3 # 10))
  ∧ Sentiment.reread (Sentiment.Finite (Std.double (1005 # 1000)))
    = Sentiment.Finite 1
  ∧ Sentiment.reread (Sentiment.Finite (Std.double (- 1 # 1000)))
    = Sentiment.Finite 0
  ∧ Sentiment.SentimentTimeline
      (Object {| Sentiment.timeline :=
                   Object [("2020", Sentiment.NotNumber)] |})
    = inl TypeError.
Proof. by vm_compute. Qed.

(** ** HomePage (the page that mounts the components) *)

Section Trim.
Import Std.

(** The white space characters, byte by byte. *)
Example whiteSpace_bytes :
  (λ w, Ascii.N_of_ascii <$> list_ascii_of_string w) <$> whiteSpace
  = [[9]; [11]; [12]; [239; 187; 191];
     [32]; [194; 160]; [225; 154; 128]; [226; 128; 128]; [226; 128; 129];
     [226; 128; 130]; [226; 128; 131]; [226; 128; 132]; [226; 128; 133];
     [226; 128; 134]; [226; 128; 135]; [226; 128; 136]; [226; 128; 137];
     [226; 128; 138]; [226; 128; 175]; [226; 129; 159]; [227; 128; 128];
     [10]; [13]; [226; 128; 168]; [226; 128; 169]]%N.
Proof. reflexivity. Qed.

(** A no-break space and an ideographic space are skipped like a space. *)
Example parseInt_skips_white_space :
  parseInt (utf8 0xA0 +:+ "1") = Num 1
  ∧ parseInt (utf8 0x3000 +:+ utf8 0x2028 +:+ " -12px") = Num (-12)
  ∧ parseInt (utf8 0xC2 +:+ "1") = NaN
  ∧ trim (utf8 0xA0) = ""
  ∧ trim (utf8 0xFEFF +:+ " u-1" +:+ utf8 0x3000 +:+ " ") = "u-1"
  ∧ trim (" a" +:+ utf8 0x2003 +:+ "b ") = "a" +:+ utf8 0x2003 +:+ "b".
Proof. by vm_compute. Qed.

Lemma length_append s t :
  String.length (s +:+ t) = (String.length s + String.length t)%nat.
Proof.
  induction s as [|c s IH]; [done|]. rewrite append_cons. simpl. by rewrite IH.
Qed.

Lemma stripPrefix_Some w s r : stripPrefix w s = Some r ↔ s = w +:+ r.
Proof.
  revert s. induction w as [|a w IH]; intros s.
  - rewrite append_nil_l. simpl. split; congruence.
  - rewrite append_cons. simpl. destruct s as [|b s]; [by split|].
    destruct (Ascii.eqb_spec a b) as [->|Hne].
    + rewrite IH. split; congruence.
    + split; [done|]. intros [= ? _]. done.
Qed.

Lemma stripPrefix_refl w : stripPrefix w w = Some "".
Proof.
  induction w as [|a w IH]; [done|]. simpl. by rewrite Ascii.eqb_refl.
Qed.

Lemma stripPrefix_apart w' w r :
  stripPrefix w' w = None → stripPrefix w w' = None →
  stripPrefix w' (w +:+ r) = None.
Proof.
  revert w. induction w' as [|a w' IH]; intros w; simpl; [done|].
  destruct w as [|b w]; [done|]. rewrite append_cons. simpl.
  rewrite (Ascii.eqb_sym b a). destruct (Ascii.eqb a b); [apply IH|done].
Qed.

Lemma stripFirst_Some ws s r :
  stripFirst ws s = Some r → ∃ w, w ∈ ws ∧ s = w +:+ r.
Proof.
  induction ws as [|w ws IH]; simpl; [done|].
  destruct (stripPrefix w s) as [r'|] eqn:Hw.
  - intros [= ->]. exists w. split; [by left|]. by apply stripPrefix_Some.
  - intros (w' & ? & ?)%IH. exists w'. split; [by right|done].
Qed.

Lemma stripFirst_app ws w r :
  w ∈ ws →
  Forall (λ w', w' = w ∨ stripPrefix w' w = None ∧ stripPrefix w w' = None) ws →
  stripFirst ws (w +:+ r) = Some r.
Proof.
  induction ws as [|w0 ws IH]; [by intros ?%elem_of_nil|].
  intros Hin [Hw0 Hws]%Forall_cons. simpl.
  destruct Hw0 as [->|[H1 H2]].
  - by rewrite (proj2 (stripPrefix_Some w (w +:+ r) r) eq_refl).
  - rewrite (stripPrefix_apart _ _ r H1 H2).
    apply elem_of_cons in Hin as [->|Hin]; [|by apply IH].
    by rewrite stripPrefix_refl in H1.
Qed.

(** No white space character is empty or the beginning of another. *)
Lemma whiteSpace_apart :
  Forall (λ w,
    w ≠ ""
    ∧ Forall (λ w',
        w' = w ∨ stripPrefix w' w = None ∧ stripPrefix w w' = None)
        whiteSpace) whiteSpace.
Proof.
  assert (forallb (λ w,
            negb (String.eqb w "")
            && forallb (λ w',
                 String.eqb w' w
                 || bool_decide (stripPrefix w' w = None)
                    && bool_decide (stripPrefix w w' = None)) whiteSpace)
            whiteSpace = true) as Hall by by vm_compute.
  apply Forall_forall. intros w Hw.
  rewrite forallb_forall in Hall.
  specialize (Hall w (proj1 (list_elem_of_In _ _) Hw)).
  apply andb_prop in Hall as [Hne Hall]. split.
  - intros ->. done.
  - apply Forall_forall. intros w' Hw'. rewrite forallb_forall in Hall.
    specialize (Hall w' (proj1 (list_elem_of_In _ _) Hw')).
    apply orb_prop in Hall as [Heq|Hap].
    + left. by apply String.eqb_eq.
    + right. apply andb_prop in Hap as [H1 H2].
      split; by eapply bool_decide_eq_true_1.
Qed.

Lemma stripWhite_Some s r :
  stripWhite s = Some r ↔ ∃ w, w ∈ whiteSpace ∧ s = w +:+ r.
Proof.
  split; [apply stripFirst_Some|]. intros (w & Hw & ->).
  apply stripFirst_app; [done|].
  pose proof whiteSpace_apart as Hall. rewrite Forall_forall in Hall.
  by apply Hall.
Qed.

Lemma stripWhite_shorter s r :
  stripWhite s = Some r → (String.length r < String.length s)%nat.
Proof.
  intros (w & Hw & ->)%stripWhite_Some.
  pose proof whiteSpace_apart as Hall. rewrite Forall_forall in Hall.
  destruct (Hall w Hw) as [Hne _]. rewrite length_append.
  destruct w; [done|simpl; lia].
Qed.

Lemma trimStart_from_enough n m s :
  (String.length s ≤ n)%nat → (String.length s ≤ m)%nat →
  trimStart_from n s = trimStart_from m s.
Proof.
  revert m s. induction n as [|n IH]; intros m s Hn Hm.
  - destruct s; [|simpl in Hn; lia]. by destruct m.
  - destruct m as [|m].
    + destruct s; [done|simpl in Hm; lia].
    + simpl. destruct (stripWhite s) as [r|] eqn:Hr; [|done].
      apply stripWhite_shorter in Hr. apply IH; lia.
Qed.

Lemma trimStart_unfold s :
  trimStart s
  = match stripWhite s with Some r => trimStart r | None => s end.
Proof.
  unfold trimStart. destruct s as [|c s]; [done|].
  cbn [String.length trimStart_from].
  destruct (stripWhite (String c s)) as [r|] eqn:Hr; [|done].
  apply stripWhite_shorter in Hr. simpl in Hr.
  apply trimStart_from_enough; lia.
Qed.

Lemma string_length_ind (P : string → Prop) :
  (∀ s, (∀ r, (String.length r < String.length s)%nat → P r) → P s) →
  ∀ s, P s.
Proof.
  intros Hstep s. remember (String.length s) as n eqn:Hn.
  revert s Hn. induction n as [n IH] using lt_wf_ind. intros s ->.
  apply Hstep. intros r Hr. by eapply IH.
Qed.

Lemma trimStart_blank s : trimStart s = "" ↔ blank s.
Proof.
  split.
  - induction s as [s IH] using string_length_ind.
    rewrite trimStart_unfold.
    destruct (stripWhite s) as [r|] eqn:Hr; [|intros ->; constructor].
    pose proof (stripWhite_shorter _ _ Hr) as Hlt.
    apply stripWhite_Some in Hr as (w & Hw & ->).
    intros Hempty. constructor; [done|]. by apply IH.
  - induction 1 as [|w r Hw _ IH]; [done|].
    rewrite trimStart_unfold.
    by rewrite (proj2 (stripWhite_Some (w +:+ r) r) (ex_intro _ w (conj Hw eq_refl))).
Qed.

Lemma stripWhite_trimStart s : stripWhite (trimStart s) = None.
Proof.
  induction s as [s IH] using string_length_ind.
  rewrite trimStart_unfold.
  destruct (stripWhite s) as [r|] eqn:Hr; [|done].
  apply IH. by apply stripWhite_shorter.
Qed.

Lemma trimStart_idemp s : trimStart (trimStart s) = trimStart s.
Proof. by rewrite (trimStart_unfold (trimStart s)), stripWhite_trimStart. Qed.

Lemma trimEnd_empty s : trimEnd s = "" ↔ trimStart s = "".
Proof.
  destruct s as [|c r]; [done|]. cbn [trimEnd].
  destruct (String.eqb_spec (trimStart (String c r)) ""); by split.
Qed.

Lemma trim_empty s : trim s = "" ↔ blank s.
Proof.
  unfold trim. by rewrite trimEnd_empty, trimStart_idemp, trimStart_blank.
Qed.

End Trim.

Section PageFacts.
Import Std Page.

Lemma or_else_nonempty a b : b ≠ "" → or_else a b ≠ "".
Proof.
  intros Hb. unfold or_else. destruct (String.eqb_spec a ""); done.
Qed.

Lemma consistent_step st e : consistent st → consistent (step st e).
Proof.
  intros [Hload Herr]. unfold consistent. destruct e as [value| |o]; simpl.
  - by split.
  - destruct (isLoading st) eqn:Hl; [by rewrite Hl|]. unfold begin.
    destruct (String.eqb _ _); simpl; split.
    + by rewrite Hl.
    + by intros m [= <-].
    + done.
    + done.
  - destruct (isLoading st) eqn:Hl; [|by rewrite Hl].
    destruct (Hload eq_refl) as [He Hp].
    unfold settle. destruct (attempt o) as [message|data]; simpl; split.
    + done.
    + intros m [= <-]. split; [|done]. by apply or_else_nonempty.
    + done.
    + by rewrite He.
Qed.

Lemma consistent_run events st : consistent st → consistent (run st events).
Proof.
  revert st. induction events as [|e events IH]; intros st Hst; [done|].
  simpl. by apply IH, consistent_step.
Qed.

Lemma mounted_Some st props :
  mounted st = Some props →
  isLoading st = false
  ∧ ∃ p, profileData st = Object p ∧ review_rhythm p = props
         ∧ truthy props = true.
Proof.
  unfold mounted, view. simpl.
  destruct (profileData st) as [| |p]; [done..|].
  destruct (isLoading st); [done|]. simpl.
  destruct (truthy (review_rhythm p)) eqn:Ht; [|done].
  intros [= <-]. eauto.
Qed.

Lemma mounted_step st e props props' :
  mounted st = Some props → mounted (step st e) = Some props' →
  props' = props.
Proof.
  intros Hm Hm'. pose proof Hm as (Hl & p & Hp & Hr & Ht)%mounted_Some.
  destruct e as [value| |o]; simpl in Hm'.
  - unfold mounted, view in Hm, Hm'. simpl in Hm, Hm'. congruence.
  - rewrite Hl in Hm'. unfold begin in Hm'.
    destruct (String.eqb _ _); by apply mounted_Some in Hm' as (? & ? & ? & _).
  - rewrite Hl in Hm'. congruence.
Qed.


End PageFacts.


(** X12.  After any sequence of typing, submitting and settling requests,
    the page shows at most one of the loading note, the error box and the
    dashboard; and an error that is set is never the empty string, so its
    box is always shown. *)
Theorem page_shows_one_thing_at_a_time (events : list Page.Event) :
  let st := Page.run Page.initial events in
  let v := Page.view st in
  (Page.loadingNote v = true →
     Page.errorBox v = None ∧ Page.dashboard v = None)
  ∧ (is_Some (Page.errorBox v) → Page.dashboard v = None)
  ∧ Page.errorBox v = Page.error st.
Proof.
  intros st v.
  assert (Page.consistent st) as [Hload Herr].
  { apply consistent_run. split; [done|]. by intros m. }
  subst v. unfold Page.view. simpl. split_and!.
  - intros Hl. destruct (Hload Hl) as [-> ->]. done.
  - destruct (Page.error st) as [m|]; [|by intros [? ?]].
    destruct (Herr m eq_refl) as [_ ->]. done.
  - destruct (Page.error st) as [m|]; [|done].
    destruct (Herr m eq_refl) as [Hm _].
    by destruct (String.eqb_spec m "").
Qed.

(** X13.  When the request in flight settles, loading ends and the typed
    id is kept; an ok response with a parsable body leaves that body as the
    profile and no error; every other outcome leaves no profile and a
    non-empty error message, which the error box shows. *)
Theorem settled_request_leaves_data_or_a_message (events : list Page.Event)
    (o : Page.Outcome) :
  let st := Page.run Page.initial events in
  Page.isLoading st = true →
  let st' := Page.step st (Page.Settled o) in
  Page.isLoading st' = false
  ∧ Page.userId st' = Page.userId st
  ∧ match o with
    | Page.Ok data => Page.profileData st' = data ∧ Page.error st' = None
    | _ =>
        Page.profileData st' = Null
        ∧ ∃ m, Page.error st' = Some m ∧ m ≠ ""
               ∧ Page.errorBox (Page.view st') = Some m
    end.
Proof.
  intros st Hl st'.
  assert (Page.consistent st) as [Hload _].
  { apply consistent_run. split; [done|]. by intros m. }
  destruct (Hload Hl) as [He Hp]. subst st'. simpl. rewrite Hl.
  assert (∀ message,
    let m := Page.or_else message "An unexpected error occurred." in
    ∃ m', Some m = Some m' ∧ m' ≠ ""
          ∧ (if String.eqb m "" then None else Some m) = Some m') as Hmsg.
  { intros message m. exists m. split; [done|].
    assert (m ≠ "") as Hm by by apply or_else_nonempty.
    split; [done|]. by destruct (String.eqb_spec m ""). }
  destruct o as [message|status [|message|[detail|]]|message|data]; simpl;
    (split; [done|]); (split; [done|]); try (split; [done|]; apply Hmsg).
  by rewrite He.
Qed.

(** The id "u-1" submitted and answered by a 404 without a detail. *)
Lemma settled_request_leaves_data_or_a_message_witness :
  let st :=
    Page.run Page.initial [Page.Typed "u-1"; Page.Submitted] in
  let st' := Page.step st (Page.Settled (Page.NotOk 404 (Page.Body None))) in
  Page.isLoading st' = false
  ∧ Page.userId st' = Page.userId st
  ∧ Page.profileData st' = Null
  ∧ ∃ m, Page.error st' = Some m ∧ m ≠ ""
         ∧ Page.errorBox (Page.view st') = Some m.
Proof.
  apply (settled_request_leaves_data_or_a_message
           [Page.Typed "u-1"; Page.Submitted]
           (Page.NotOk 404 (Page.Body None))).
  reflexivity.
Defined.

(** X14.  Submitting sends no request exactly when the typed id consists
    of white space only (or is empty): the page then asks for an id and
    drops the profile.  Otherwise it starts loading, clears error and
    profile, and requests the URL made from the id as typed, untrimmed. *)
Theorem request_sent_unless_id_blank (st : Page.State) :
  let blank := Std.blank (Page.userId st) in
  (blank →
     Page.begin st
     = (Page.setProfileData Null
          (Page.setError (Some "Please enter a User ID.") st), None))
  ∧ (¬ blank →
     ∃ st', Page.begin st
            = (st', Some ("http://localhost:8000/api/users/"
                          +:+ Page.userId st +:+ "/full-profile"))
            ∧ Page.isLoading st' = true ∧ Page.error st' = None
            ∧ Page.profileData st' = Null
            ∧ Page.userId st' = Page.userId st).
Proof.
  intros blank. unfold Page.begin.
  destruct (String.eqb_spec (Std.trim (Page.userId st)) "") as [Hb|Hb];
    rewrite trim_empty in Hb; split; try done.
  intros _. by eexists.
Qed.

(** X15.  The Review Rhythm section never throws and has two different
    fallbacks: the page's own text when the profile has no [review_rhythm],
    and the component's text when it has one without data; in every other
    case it shows the heatmap. *)
Theorem rhythm_section_has_two_fallbacks (p : Page.Profile)
    (hov : option Cell) (scale : D3.Scale) :
  (truthy (Page.review_rhythm p) = false
   ∧ Page.rhythmSection p hov scale
     = inr (Fallback "No Review Rhythm data available.", scale))
  ∨ (truthy (Page.review_rhythm p) = true
     ∧ noDataAvailable (Page.review_rhythm p)
     ∧ Page.rhythmSection p hov scale
       = inr (Fallback "Review rhythm data is not available.", scale))
  ∨ (∃ e d chart,
       Page.review_rhythm p = payload (e :: d)
       ∧ Page.rhythmSection p hov scale
         = inr (Heatmap chart, D3.set_domain (0, domainMax (e :: d)) scale)).
Proof.
  destruct p as [[| |[[| |[|e d]]]]]; unfold Page.rhythmSection; simpl.
  - by left.
  - by left.
  - right. left. split_and!; [done| |done].
    right. right. eexists. split; [done|]. by left.
  - right. left. split_and!; [done| |done].
    right. right. eexists. split; [done|]. right. by left.
  - right. left. split_and!; [done| |done].
    right. right. eexists. split; [done|]. right. by right.
  - right. right. exists e, d. eexists. split; [done|].
    apply ReviewRhythm_chart.
Qed.

(** X16.  On the page, the mounted ReviewRhythm is always the one for the
    payload of the profile shown, and it never meets another payload: as
    long as an instance stays mounted its payload is the same and only the
    pointer changes its hover state; an instance appears only when a
    request settles, and then with no hovered cell. *)
Theorem mounted_heatmap_keeps_its_payload (events : list App.Event) :
  let st := App.run App.initial events in
  (match App.rhythm st with
   | Some i => Page.mounted (App.page st) = Some (Session.current i)
   | None => Page.mounted (App.page st) = None
   end)
  ∧ ∀ e,
      let st' := App.step st e in
      match App.rhythm st, App.rhythm st' with
      | Some i, Some i' =>
          Session.current i' = Session.current i
          ∧ (Session.hoveredCell i' ≠ Session.hoveredCell i →
             ∃ r, e = App.Enter r ∨ e = App.Leave r)
      | None, Some i' =>
          Session.hoveredCell i' = None
          ∧ ∃ o, e = App.OnPage (Page.Settled o)
      | _, None => True
      end.
Proof.
  intros st.
  assert (match App.rhythm st with
          | Some i => Page.mounted (App.page st) = Some (Session.current i)
          | None => Page.mounted (App.page st) = None
          end) as Hinv.
  { subst st. induction events as [|e events IH] using rev_ind; [done|].
    unfold App.run in *. rewrite fold_left_app. simpl.
    set (st := fold_left App.step events App.initial) in *.
    destruct e as [e|r|r]; simpl.
    - unfold App.reconcile.
      destruct (Page.mounted (Page.step _ e)) as [props|]; simpl; [|done].
      clear IH. by destruct (App.rhythm st).
    - by destruct (App.rhythm st).
    - by destruct (App.rhythm st). }
  split; [done|]. intros e st'. subst st'.
  destruct (App.rhythm st) as [i|] eqn:Hi.
  - destruct e as [e|r|r]; simpl; rewrite Hi; simpl.
    + unfold App.reconcile.
      destruct (Page.mounted (Page.step _ e)) as [props|] eqn:Hm; [|done].
      simpl. split; [|done]. by eapply mounted_step.
    + split; [done|]. intros _. exists r. by left.
    + split; [done|]. intros _. exists r. by right.
  - destruct e as [e|r|r]; simpl; rewrite Hi; simpl; [|done..].
    unfold App.reconcile.
    destruct (Page.mounted (Page.step _ e)) as [props|] eqn:Hm; [|done].
    simpl. split; [done|].
    destruct e as [value| |o]; [| |by eexists].
    + simpl in Hm. unfold Page.mounted, Page.view in Hinv, Hm.
      simpl in Hinv, Hm. congruence.
    + simpl in Hm. destruct (Page.isLoading (App.page st)) eqn:Hl.
      * congruence.
      * unfold Page.begin in Hm.
        destruct (String.eqb _ _);
          by apply mounted_Some in Hm as (? & ? & ? & _).
Qed.

